(** * pyrostat: the metabase / table-of-contents resolution engine

    A shallow embedding of [pyrostat/collection.py] (classes [Bulk] and
    [Meta]) together with the properties of its URL builder, of the
    resolver over the metabase table and of the table-of-contents lookup.

    Conventions of the embedding:
    - a Python [str] is the [string] of its code points, for the strings
      whose code points are below 256; a keyword dictionary [**kwargs] is
      an association list in insertion order;
    - a call that may [raise] returns a [result]: [Ok v] or [Raise e];
    - a [pandas.DataFrame] is a list of column names and a list of rows;
    - the constants of the [settings] module, which the package imports,
      are Section variables;
    - a name or an attribute that the code looks up and that may not be
      there is an [option]: [None] when it is not bound. *)

From Stdlib Require Import String Ascii List Bool Arith ZArith Lia.
From Stdlib Require Import DecimalString.
From Stdlib Require Import Permutation.
Import ListNotations.
Open Scope list_scope.
Open Scope string_scope.

Set Implicit Arguments.

(** ** Exceptions and results *)

(** The exceptions the modelled methods raise.  Each [pyroError] of the
    source is one constructor, named after its message. *)
Inductive error : Type :=
| LanguageNotSupported   (* pyroError('language not supported') *)
| WrongTypeSort          (* pyroError('wrong type for SORT parameter') *)
| WrongValueSort         (* pyroError('wrong value for SORT parameter') *)
| WrongTypeItem          (* pyroError('wrong type for ITEM parameter') *)
| NoMetabaseData         (* pyroError('no METABASE data found') *)
| MetabaseNotFound       (* pyroError('metabase data not found - load the file from Eurobase') *)
| MemberNotRecognised    (* pyroError('member value not recognised - must be any string in: ...') *)
| MemberAsKeyword        (* pyroError('member value should not be passed as a keyword argument') *)
| TocExtNotRecognised    (* pyroError('bulk table of contents extension EXT not recognised') *)
| LangNotRecognised      (* pyroError('language LANG not recognised') *)
| TocNotFound            (* pyroError('table of contents not found - load the file from Eurobase') *)
| MemberNotInToc         (* pyroError('member not found in codelist of table of contents') *)
| KeyError               (* raised by dict and pandas lookups *)
| IndexError             (* raised by list[0] and columns[-1] on empty sequences *)
| AttributeError         (* raised when an attribute does not exist *)
| TypeError              (* raised by an operation on a value of the wrong type *)
| ValueError             (* raised by pandas: groupby without keys *)
| NameError.             (* raised when a global name is not bound *)

Inductive result (A : Type) : Type :=
| Ok (a : A)
| Raise (e : error).

Arguments Ok {A} a.
Arguments Raise {A} e.

Definition bind {A B : Type} (r : result A) (k : A -> result B) : result B :=
  match r with
  | Ok a => k a
  | Raise e => Raise e
  end.

Notation "x <- r ;; k" := (bind r (fun x => k))
  (at level 61, r at next level, right associativity).

(** ** Python values and keyword dictionaries *)

(** The Python values that reach the modelled code as parameter values. *)
Inductive pyval : Type :=
| VNone
| VInt (z : Z)
| VStr (s : string).

(** [str(v)], as used by [str.format] and by the query-string encoder. *)
Definition str (v : pyval) : string :=
  match v with
  | VNone => "None"
  | VInt z => NilZero.string_of_int (Z.to_int z)
  | VStr s => s
  end.

Module Dict.
(** A Python [dict] with string keys, in insertion order. *)
Definition t (V : Type) : Type := list (string * V).

Definition keys {V} (d : t V) : list string := map fst d.

(** [k in d] *)
Definition mem {V} (k : string) (d : t V) : bool :=
  existsb (String.eqb k) (keys d).

(** [d.get(k)], [None] when the key is absent. *)
Fixpoint get {V} (k : string) (d : t V) : option V :=
  match d with
  | [] => None
  | (k', v) :: d' => if String.eqb k k' then Some v else get k d'
  end.

(** The dictionary left by [d.pop(k)]. *)
Definition remove {V} (k : string) (d : t V) : t V :=
  filter (fun kv => negb (String.eqb k (fst kv))) d.

(** [d == {}] *)
Definition is_empty {V} (d : t V) : bool :=
  match d with [] => true | _ => false end.
End Dict.

Definition kwargs : Type := Dict.t pyval.

(** [x in l] for a sequence of strings. *)
Definition str_in (x : string) (l : list string) : bool :=
  existsb (String.eqb x) l.

(** ** Query-string encoding *)

Definition is_unreserved (c : ascii) : bool :=
  let n := nat_of_ascii c in
  (((48 <=? n) && (n <=? 57)) || ((65 <=? n) && (n <=? 90))
   || ((97 <=? n) && (n <=? 122))
   || (n =? 95) || (n =? 46) || (n =? 45) || (n =? 126))%nat.

Definition hex_digit (n : nat) : ascii :=
  if (n <? 10)%nat then ascii_of_nat (48 + n) else ascii_of_nat (55 + n).

(** Percent-encoding of one character of a query component. *)
Definition quote_char (c : ascii) : string :=
  if is_unreserved c then String c ""
  else if Ascii.eqb c " " then "+"
  else String "%" (String (hex_digit (nat_of_ascii c / 16))
                  (String (hex_digit (nat_of_ascii c mod 16)) "")).

Fixpoint quote_plus (s : string) : string :=
  match s with
  | "" => ""
  | String c s' => quote_char c ++ quote_plus s'
  end.

(** One [key=value] pair of the query string. *)
Definition encode_pair (kv : string * pyval) : string :=
  quote_plus (fst kv) ++ "=" ++ quote_plus (str (snd kv)).

(** The pairs joined with [&]. *)
Definition urlencode (d : kwargs) : string :=
  String.concat "&" (map encode_pair d).

(** Modelled from the spec: [Session.build_url] of the [session] module,
    which is not part of the sources.  The parameters are serialised as
    [key=value] pairs, URL-encoded, joined with [&], in the order of the
    mapping, and [?] followed by this query string is appended to the
    domain when there are parameters. *)
Definition build_url (domain : string) (d : kwargs) : string :=
  if Dict.is_empty d then domain else domain ++ "?" ++ urlencode d.

(** ** The URL builder: [Bulk.update_url] *)

(** The call [Session.build_url(domain, **kwargs)].  [Session] is a
    global name of the module: the call raises [NameError] when the
    module does not bind the name, and returns what the builder bound to
    it returns otherwise. *)
Definition call_build_url (binding : option (string -> kwargs -> string))
           (domain : string) (d : kwargs) : result string :=
  match binding with
  | Some builder => Ok (builder domain d)
  | None => Raise NameError
  end.

(** The name [Session] in [pyrostat/collection.py]: the module imports
    [session], the module of that name, and binds [Session] nowhere. *)
Definition module_Session : option (string -> kwargs -> string) := None.

Section UrlBuilder.

(** What the global name [Session] provides as [build_url] in the module
    that holds the method. *)
Variable Session_build_url : option (string -> kwargs -> string).

(** [settings.LANGS] and [settings.DEF_SORT] *)
Variable LANGS : list string.
Variable DEF_SORT : Z.

(** [lang not in settings.LANGS] is decided on strings: a value that is
    not a string is in no list of language codes. *)
Definition lang_supported (lang : pyval) : bool :=
  match lang with
  | VStr s => str_in s LANGS
  | _ => false
  end.

Definition is_none (v : pyval) : bool :=
  match v with VNone => true | _ => false end.

(** [kwargs.pop(k)] when [k in kwargs], the default otherwise. *)
Definition pop_or (k : string) (default : pyval) (kw : kwargs)
  : pyval * kwargs :=
  match Dict.get k kw with
  | Some v => (v, Dict.remove k kw)
  | None => (default, kw)
  end.

(** [Bulk.update_url], a static method: the URL, or the exception
    raised.  In [pyrostat/collection.py] the method runs with
    [module_Session] for [Session_build_url]. *)
Definition update_url (domain : string) (kw : kwargs) : result string :=
  if Dict.is_empty kw then Ok domain
  else
    let (lang, kw1) := pop_or "lang" VNone kw in
    if negb (is_none lang) && negb (lang_supported lang)
    then Raise LanguageNotSupported
    else
      let (sort, kw2) := pop_or "sort" (VInt DEF_SORT) kw1 in
      let kw3 := ("sort", sort) :: kw2 in
      url <- call_build_url Session_build_url domain kw3 ;;
      if negb (is_none lang) then Ok (url ++ "/" ++ str lang)
      else Ok url.

End UrlBuilder.

(** ** The [sort] attribute: [Bulk.sort] (setter) *)


(** ** Tables *)

(** A [pandas.DataFrame] whose cells are strings, as are the codes,
    titles and periods of the two index files: the column labels and the
    rows, each row holding one cell per column, in the order of the
    labels. *)
Record DataFrame : Type := mkDataFrame {
  columns : list string;
  rows : list (list string)
}.

Fixpoint index_of (name : string) (cols : list string) : option nat :=
  match cols with
  | [] => None
  | c :: cols' =>
      if String.eqb name c then Some 0
      else option_map S (index_of name cols')
  end.

Definition cell (i : nat) (row : list string) : string := nth i row "".

(** [df[name]]: the cells of a column, [KeyError] when there is no such
    column. *)
Definition column (df : DataFrame) (name : string) : result (list string) :=
  match index_of name (columns df) with
  | Some i => Ok (map (cell i) (rows df))
  | None => Raise KeyError
  end.

(** [Series.unique().tolist()]: the distinct values, in order of first
    appearance. *)
Fixpoint unique (l : list string) : list string :=
  match l with
  | [] => []
  | x :: l' => x :: filter (fun y => negb (String.eqb y x)) (unique l')
  end.

(** A cell equals a required value: cells are strings, so only a string
    value can be equal to one. *)
Definition cell_is (c : string) (v : pyval) : bool :=
  match v with
  | VStr s => String.eqb c s
  | _ => false
  end.

Fixpoint indices (cols : list string) (keys : list string)
  : option (list nat) :=
  match keys with
  | [] => Some []
  | k :: keys' =>
      match index_of k cols, indices cols keys' with
      | Some i, Some l => Some (i :: l)
      | _, _ => None
      end
  end.

(** The row belongs to the group of key [vals] for the columns [idxs]. *)
Fixpoint in_group (idxs : list nat) (vals : list pyval) (row : list string)
  : bool :=
  match idxs, vals with
  | [], [] => true
  | i :: idxs', v :: vals' => cell_is (cell i row) v && in_group idxs' vals' row
  | _, _ => false
  end.

(** [df.groupby(keys).get_group(vals)] of pandas: the rows whose cells
    in the columns [keys] are [vals].  [groupby] raises [ValueError]
    without keys and [KeyError] for a key that is not a column;
    [get_group] raises [KeyError] when no row belongs to the group.  With
    a single key the source passes the key and the value themselves
    instead of one-element sequences, which selects the same rows. *)
Definition get_group (df : DataFrame) (keys : list string)
           (vals : list pyval) : result DataFrame :=
  match keys with
  | [] => Raise ValueError
  | _ =>
      match indices (columns df) keys with
      | None => Raise KeyError
      | Some idxs =>
          match filter (in_group idxs vals) (rows df) with
          | [] => Raise KeyError
          | sel => Ok (mkDataFrame (columns df) sel)
          end
      end
  end.

(** [d[k]] on a dictionary. *)
Definition getitem_dict {V} (k : string) (d : Dict.t V) : result V :=
  match Dict.get k d with
  | Some v => Ok v
  | None => Raise KeyError
  end.

(** [kwargs.get(k)]: Python's [None] when the key is absent. *)
Definition kwargs_get (k : string) (kw : kwargs) : pyval :=
  match Dict.get k kw with
  | Some v => v
  | None => VNone
  end.

(** ** The resolver: [Meta.__get_member] *)

(** [kw] stands for the keyword arguments that Python binds to
    [**kwargs]: the call itself refuses keywords named like the two
    positional parameters. *)

Section Resolver.

(** [settings.BULK_BASE_NAMES]: for [Meta] a dictionary, whose keys are
    the member names ('data', 'dic', 'label' in the source's comment). *)
Variable BULK_BASE_NAMES : Dict.t string.

(** The order in which [list(set(...))] enumerates the elements of a
    set given by the list of its elements: Python leaves it open. *)
Variable set_order : list string -> list string.

Definition members : list string := Dict.keys BULK_BASE_NAMES.

(** [list(set(kwargs.keys()).intersection(set(members)))] *)
Definition group_keys (kw : kwargs) : list string :=
  set_order (filter (fun k => str_in k members) (Dict.keys kw)).

Definition get_member (member : string) (metabase : option DataFrame)
           (kw : kwargs) : result (list string) :=
  match metabase with
  | None => Raise MetabaseNotFound
  | Some df =>
      if negb (str_in member members) then Raise MemberNotRecognised
      else if Dict.mem member kw then Raise MemberAsKeyword
      else
        let grpby := group_keys kw in
        group <- match grpby with
                 | [] => Ok df
                 | _ =>
                     let fltby := map (fun k => kwargs_get k kw) grpby in
                     get_group df grpby fltby
                 end ;;
        col <- column group member ;;
        Ok (unique col)
  end.

(** *** The [Meta] object *)

(** A stored entry of [self.__dimension] / [self.__dataset]: [None] or a
    list of codes. *)
Inductive entry : Type :=
| ENone
| EList (l : list string).

(** The attributes of a [Meta] instance that the modelled methods read.
    [metabase] and [toc] are [None] until a table is loaded.  The class
    never assigns [__dimension] and [__dataset] itself: a store is
    [None] while the attribute does not exist. *)
Record Meta : Type := mkMeta {
  url : string;
  sort : pyval;
  lang : string;
  metabase : option DataFrame;
  toc : option DataFrame;
  dimension_store : option (Dict.t entry);
  dataset_store : option (Dict.t entry)
}.

Definition attribute {A} (a : option A) : result A :=
  match a with
  | Some x => Ok x
  | None => Raise AttributeError
  end.

(** Property [Meta.dataset] *)
Definition dataset (self : Meta) : result (list string) :=
  match metabase self with
  | None => Raise NoMetabaseData
  | Some df =>
      name <- getitem_dict "data" BULK_BASE_NAMES ;;
      col <- column df name ;;
      Ok (unique col)
  end.

(** Property [Meta.dimension] *)
Definition dimension (self : Meta) : result (list string) :=
  match metabase self with
  | None => Raise NoMetabaseData
  | Some df =>
      name <- getitem_dict "dic" BULK_BASE_NAMES ;;
      col <- column df name ;;
      Ok (unique col)
  end.

(** [Meta.__getitem__]; a method that ends without [return] returns
    [None]. *)
Definition getitem (self : Meta) (item : pyval) : result entry :=
  match item with
  | VStr s =>
      dims <- dimension self ;;
      if str_in s dims then
        store <- attribute (dimension_store self) ;;
        getitem_dict s store
      else
        dsets <- dataset self ;;
        if str_in s dsets then
          store <- attribute (dataset_store self) ;;
          getitem_dict s store
        else Ok ENone
  | _ => Raise WrongTypeItem
  end.

End Resolver.

(** ** String trimming: [str.lstrip] and [str.rstrip] *)

(** The code points below 256 that Python's [str.isspace] accepts, which
    are the characters [str.lstrip] and [str.rstrip] remove: tab, line
    feed, vertical tab, form feed, carriage return (9-13), the four
    separators 0x1c-0x1f (28-31), the space (32), the next-line control
    0x85 (133) and the no-break space 0xa0 (160). *)
Definition is_space (c : ascii) : bool :=
  let n := nat_of_ascii c in
  (((9 <=? n) && (n <=? 13)) || ((28 <=? n) && (n <=? 32))
   || (n =? 133) || (n =? 160))%nat.

Fixpoint lstrip (s : string) : string :=
  match s with
  | "" => ""
  | String c s' => if is_space c then lstrip s' else s
  end.

Fixpoint rstrip (s : string) : string :=
  match s with
  | "" => ""
  | String c s' =>
      match rstrip s' with
      | "" => if is_space c then "" else String c ""
      | r => String c r
      end
  end.

(** ** Table-of-contents lookup *)

(** [toc[code == member]]: the rows selected by the boolean mask. *)
Definition select_eq (df : DataFrame) (i : nat) (member : string)
  : DataFrame :=
  mkDataFrame (columns df)
              (filter (fun r => String.eqb (cell i r) member) (rows df)).

(** [Meta.__get_content] *)
Definition get_content (member : string) (toc : option DataFrame)
  : result DataFrame :=
  match toc with
  | None => Raise TocNotFound
  | Some df =>
      match index_of "code" (columns df) with
      | None => Raise KeyError
      | Some i =>
          let code := map (cell i) (rows df) in
          if negb (str_in member code) then Raise MemberNotInToc
          else Ok (select_eq df i member)
      end
  end.

(** [series[ind[0]]], the cell of the first row of the selection. *)
Definition first_cell (series : list string) : result string :=
  match series with
  | [] => Raise IndexError
  | x :: _ => Ok x
  end.

(** [Meta.getTitle], on the table held by [self.toc] *)
Definition getTitle (toc : option DataFrame) (dataset : string)
  : result string :=
  res <- get_content dataset toc ;;
  title <- column res "title" ;;
  t <- first_cell title ;;
  Ok (rstrip (lstrip t)).

(** [Meta.getPeriod], on the table held by [self.toc] *)
Definition getPeriod (toc : option DataFrame) (dataset : string)
  : result (list string) :=
  res <- get_content dataset toc ;;
  starts <- column res "data start" ;;
  start <- first_cell starts ;;
  ends <- column res "data end" ;;
  end_ <- first_cell ends ;;
  Ok [start; end_].

(** ** Loading: [Meta.readMetabase] and [Meta.readToc] *)

(** A cell of a table as pandas reads it from a file or a page: a
    string, a number, or the NaN of a missing value. *)
Inductive cell_value : Type :=
| CStr (s : string)
| CNum (z : Z)
| CNaN.

(** A table as the session returns it. *)
Record RawFrame : Type := mkRawFrame {
  raw_columns : list string;
  raw_rows : list (list cell_value)
}.

(** The session the collection reads through.  A read that raises,
    whatever the exception, is [None]. *)
Record Session : Type := mkSession {
  read_url_table : string -> option RawFrame;
  read_html_table : string -> option (list RawFrame)
}.

(** What the two loaders look up on the instance beside its [url]: the
    method [update_url] and the attribute [sort].  Each is [None] when
    the instance has no such attribute. *)
Record Lookup : Type := mkLookup {
  attr_update_url : option (string -> kwargs -> result string);
  attr_sort : option pyval
}.

(** An instance as [class Meta(__Base)] makes it: neither the class nor
    its base defines [update_url] or [sort], which are those of
    [Bulk]. *)
Definition Meta_lookup : Lookup := mkLookup None None.

(** [x in l] for a Python value and a sequence of strings. *)
Definition val_in (v : pyval) (l : list string) : bool :=
  match v with
  | VStr s => str_in s l
  | _ => false
  end.

(** The cells of a row that are left when the columns labelled [label]
    are dropped. *)
Fixpoint drop_cells {A} (label : string) (cols : list string) (row : list A)
  : list A :=
  match cols, row with
  | c :: cols', x :: row' =>
      if String.eqb c label then drop_cells label cols' row'
      else x :: drop_cells label cols' row'
  | _, _ => []
  end.

(** [toc.drop(toc.columns[-1], axis=1, inplace=True)]: the columns that
    carry the label of the last one are dropped; [columns[-1]] raises
    [IndexError] on a table without columns. *)
Definition drop_last_column (t : RawFrame) : result RawFrame :=
  match raw_columns t with
  | [] => Raise IndexError
  | c :: cols =>
      let label := last cols c in
      Ok (mkRawFrame
            (filter (fun x => negb (String.eqb x label)) (raw_columns t))
            (map (drop_cells label (raw_columns t)) (raw_rows t)))
  end.

(** The cells of a row when all of them are strings. *)
Fixpoint strings_of_row (row : list cell_value) : option (list string) :=
  match row with
  | [] => Some []
  | CStr s :: row' => option_map (cons s) (strings_of_row row')
  | _ :: _ => None
  end.

Fixpoint strings_of_rows (rws : list (list cell_value))
  : option (list (list string)) :=
  match rws with
  | [] => Some []
  | r :: rws' =>
      match strings_of_row r, strings_of_rows rws' with
      | Some r', Some rws'' => Some (r' :: rws'')
      | _, _ => None
      end
  end.

(** [toc.applymap(lambda x: x.strip())]: [strip] is called on every
    cell, and a cell that is no string has no such method; the table
    made of the stripped cells is not kept, so that what is left is the
    table itself, all of whose cells are strings. *)
Definition applymap_strip (t : RawFrame) : result DataFrame :=
  match strings_of_rows (raw_rows t) with
  | Some rws => Ok (mkDataFrame (raw_columns t) rws)
  | None => Raise AttributeError
  end.

Section Loading.

(** Constants of [settings]. *)
Variable LANGS : list string.
Variable BULK_BASE_FILE BULK_BASE_EXT BULK_BASE_ZIP : string.
Variable BULK_TOC_FILE BULK_TOC_ZIP BULK_DIC_ZIP : string.
Variable BULK_TOC_EXTS : list string.

(** The attributes the instance provides. *)
Variable lookup : Lookup.

(** The local dictionary [dcomp] of [readMetabase]. *)
Definition dcomp : Dict.t string :=
  [("gz", "gzip"); ("bz2", "bz2"); ("zip", "zip")].

(** [self.update_url(self.url, sort=self.sort, file=file)]: the method is
    looked up first, then the arguments are evaluated. *)
Definition file_url (self : Meta) (file : string) : result string :=
  update_url_ <- attribute (attr_update_url lookup) ;;
  sort_ <- attribute (attr_sort lookup) ;;
  update_url_ (url self) [("sort", sort_); ("file", VStr file)].

(** [Meta.readMetabase]: the table read, or [None]. *)
Definition readMetabase (session : Session) (self : Meta)
  : result (option RawFrame) :=
  let basefile := BULK_BASE_FILE ++ "." ++ BULK_BASE_EXT in
  let basefile :=
    if negb (String.eqb BULK_BASE_ZIP "")
    then basefile ++ "." ++ BULK_BASE_ZIP else basefile in
  url_ <- file_url self basefile ;;
  _ <- getitem_dict BULK_BASE_ZIP dcomp ;;
  match read_url_table session url_ with
  | Some table => Ok (Some table)
  | None => Ok None
  end.

(** [Meta.readToc]: the table read, without its last column, or [None]. *)
Definition readToc (session : Session) (self : Meta) (kw : kwargs)
  : result (option DataFrame) :=
  ext <- match Dict.get "ext" kw with
         | None =>
             match BULK_TOC_EXTS with
             | [] => Raise IndexError
             | e :: _ => Ok (VStr e)
             end
         | Some e =>
             if negb (val_in e BULK_TOC_EXTS) then Raise TocExtNotRecognised
             else Ok e
         end ;;
  lang <- match Dict.get "lang" kw with
          | None => Ok (VStr (lang self))
          | Some l =>
              if negb (val_in l LANGS) then Raise LangNotRecognised
              else Ok l
          end ;;
  let is_xml := cell_is "xml" ext in
  let tocfile :=
    if is_xml then BULK_TOC_FILE ++ ".xml"
    else BULK_TOC_FILE ++ "_" ++ str lang ++ "." ++ str ext in
  let tocfile :=
    if negb (String.eqb BULK_TOC_ZIP "")
    then tocfile ++ "." ++ BULK_DIC_ZIP else tocfile in
  url_ <- file_url self tocfile ;;
  let read :=
    if is_xml then
      match read_html_table session url_ with
      | Some (table :: _) => Some table
      | _ => None
      end
    else read_url_table session url_ in
  match read with
  | None => Ok None
  | Some table =>
      dropped <- drop_last_column table ;;
      toc <- applymap_strip dropped ;;
      Ok (Some toc)
  end.

End Loading.

(** ** The earlier module [collection.py] (class [Collection]) *)

Module Legacy.

(** Property [Collection.meta_datasets]: the guard raises when a metabase
    is there, and without one [None] is subscripted with
    [settings.BULK_BASE_NAMES[0]]. *)
Definition meta_datasets (BULK_BASE_NAMES : list string)
           (metabase : option DataFrame) : result (list string) :=
  match metabase with
  | Some _ => Raise NoMetabaseData
  | None =>
      match BULK_BASE_NAMES with
      | [] => Raise IndexError
      | _ => Raise TypeError
      end
  end.

(** [Collection.__get_member]: here [settings.BULK_BASE_NAMES] is a list,
    and [members.pop(member)] is [list.pop] called on a string, which
    raises [TypeError] before any grouping. *)
Definition get_member (BULK_BASE_NAMES : list string) (member : string)
           (metabase : option DataFrame) (kw : kwargs)
  : result (list string) :=
  match metabase with
  | None => Raise MetabaseNotFound
  | Some _ =>
      if negb (str_in member BULK_BASE_NAMES) then Raise MemberNotRecognised
      else Raise TypeError
  end.

End Legacy.

(** ** The queries of [Meta] built on the resolver *)

Section MetaQueries.

Variable BULK_BASE_NAMES : Dict.t string.
Variable set_order : list string -> list string.

(** [self.__get_member(member, self.metabase, **kw)] *)
Definition resolve (self : Meta) (member : string) (kw : kwargs)
  : result (list string) :=
  get_member BULK_BASE_NAMES set_order member (metabase self) kw.

(** [Meta.getDataset] *)
Definition getDataset (self : Meta) (dataset : pyval)
  : result (list string) :=
  resolve self "dic" [("data", dataset)].

(** [Meta.getDimension] *)
Definition getDimension (self : Meta) (dimension : pyval)
  : result (list string) :=
  resolve self "label" [("dic", dimension)].

(** [Meta.getAllDatasets]; the parameter defaults to [None]. *)
Definition getAllDatasets (self : Meta) (dimension : pyval)
  : result (list string) :=
  if is_none dimension then resolve self "data" []
  else resolve self "data" [("dic", dimension)].

(** [Meta.getAllDimensions] *)
Definition getAllDimensions (self : Meta) (dataset : pyval)
  : result (list string) :=
  resolve self "dic" [("data", dataset)].

(** [Meta.getAllLabels].  The call of the resolver passes [dic] by name
    beside [**kwargs]: Python raises [TypeError] when [kwargs] has the
    key [dic] too, or the name of one of the two positional parameters
    of the resolver. *)
Definition getAllLabels (self : Meta) (dimension : pyval) (kw : kwargs)
  : result (list string) :=
  if Dict.mem "dic" kw || Dict.mem "member" kw || Dict.mem "metabase" kw
  then Raise TypeError
  else resolve self "label" (("dic", dimension) :: kw).

(** [Meta.checkDataset] *)
Definition checkDataset (self : Meta) (dataset : pyval) : result bool :=
  l <- getAllDatasets self VNone ;; Ok (val_in dataset l).

(** [Meta.checkDimensionInDataset] *)
Definition checkDimensionInDataset (self : Meta) (dimension dataset : pyval)
  : result bool :=
  l <- getAllDimensions self dataset ;; Ok (val_in dimension l).

(** [Meta.checkLabelInDimension] *)
Definition checkLabelInDimension (self : Meta) (label dimension : pyval)
           (kw : kwargs) : result bool :=
  l <- getAllLabels self dimension kw ;; Ok (val_in label l).

(** *** Membership checks: [Meta.__check_member] and [Meta.check_dataset] *)

(** What a membership check does: it returns a boolean, raises
    [pyroError('no members to compare to')], or lets through the
    exception of the property that lists the members. *)
Inductive check_result : Type :=
| Checked (b : bool)
| NoMembers
| PropertyRaised (e : error).

(** [Meta.__check_member]: [None] when it raises. *)
Definition check_member (member : pyval) (members : option (list string))
  : option bool :=
  match members with
  | None => None
  | Some [] => None
  | Some l => Some (val_in member l)
  end.

Definition check_with (member : pyval) (members : result (list string))
  : check_result :=
  match members with
  | Raise e => PropertyRaised e
  | Ok l =>
      match check_member member (Some l) with
      | Some b => Checked b
      | None => NoMembers
      end
  end.

(** [Meta.check_dataset] *)
Definition check_dataset (self : Meta) (dataset_ : pyval) : check_result :=
  check_with dataset_ (dataset BULK_BASE_NAMES self).

(** *** Indexing: [Meta.__contains__] and [Meta.__setitem__] *)

(** [Meta.__contains__]; [or] evaluates the datasets only when the item
    is no dimension. *)
Definition contains (self : Meta) (item : pyval) : result bool :=
  match item with
  | VStr s =>
      dims <- dimension BULK_BASE_NAMES self ;;
      if str_in s dims then Ok true
      else
        dsets <- dataset BULK_BASE_NAMES self ;;
        Ok (str_in s dsets)
  | _ => Raise WrongTypeItem
  end.

(** [d[k] = v] on a dictionary: the value of an existing key is replaced
    in place, a new key is added at the end. *)
Fixpoint setitem_dict {V} (k : string) (v : V) (d : Dict.t V) : Dict.t V :=
  match d with
  | [] => [(k, v)]
  | (k', v') :: d' =>
      if String.eqb k k' then (k', v) :: d'
      else (k', v') :: setitem_dict k v d'
  end.

Definition with_dimension_store (self : Meta) (store : Dict.t entry) : Meta :=
  mkMeta (url self) (sort self) (lang self) (metabase self) (toc self)
         (Some store) (dataset_store self).

Definition with_dataset_store (self : Meta) (store : Dict.t entry) : Meta :=
  mkMeta (url self) (sort self) (lang self) (metabase self) (toc self)
         (dimension_store self) (Some store).

(** [Meta.__setitem__]: the collection after the assignment. *)
Definition setitem (self : Meta) (item : pyval) (value : entry)
  : result Meta :=
  match item with
  | VStr s =>
      dims <- dimension BULK_BASE_NAMES self ;;
      if str_in s dims then
        store <- attribute (dimension_store self) ;;
        Ok (with_dimension_store self (setitem_dict s value store))
      else
        dsets <- dataset BULK_BASE_NAMES self ;;
        if str_in s dsets then
          store <- attribute (dataset_store self) ;;
          Ok (with_dataset_store self (setitem_dict s value store))
        else Ok self
  | _ => Raise WrongTypeItem
  end.

End MetaQueries.

(** ** The [lang] attribute: [__Base.lang] (setter) *)

(** What the setter does: it stores the language, or raises one of its
    two errors. *)
Inductive lang_result : Type :=
| LangStored (lang : string)
| LangWrongType      (* pyroError('wrong type for LANG parameter') *)
| LangUnsupported.   (* pyroError('language not supported') *)

Definition set_lang (LANGS : list string) (lang : pyval) : lang_result :=
  match lang with
  | VStr s => if negb (str_in s LANGS) then LangUnsupported else LangStored s
  | _ => LangWrongType
  end.

(** ** Notions used to state the properties *)

(** [f] lists the elements of a set in some order: the list it returns
    has the elements of its argument and no others.  Every order in which
    [list(set(...))] can enumerate a set is of this kind. *)
Definition enumerates (f : list string -> list string) : Prop :=
  forall (l : list string) (x : string), In x (f l) <-> In x l.

(** The keyword arguments that name a member: the constraints of a
    resolver query. *)
Definition constrained (names : Dict.t string) (kw : kwargs) : list string :=
  filter (fun k => str_in k (Dict.keys names)) (Dict.keys kw).

(** The row has, in each column of [keys], the value the query requires. *)
Definition satisfies (cols : list string) (kw : kwargs) (keys : list string)
           (row : list string) : bool :=
  forallb (fun k => match index_of k cols with
                    | Some i => cell_is (cell i row) (kwargs_get k kw)
                    | None => false
                    end) keys.

(** All characters of the string are left as they are by the encoder. *)
Fixpoint all_unreserved (s : string) : bool :=
  match s with
  | "" => true
  | String c s' => is_unreserved c && all_unreserved s'
  end.

(** All characters of the string are white space. *)
Fixpoint all_space (s : string) : bool :=
  match s with
  | "" => true
  | String c s' => is_space c && all_space s'
  end.

(** The three rows of the metabase scenario. *)
Definition scenario_rows : list (list string) :=
  [["ds1"; "dim1"; "lbl1"]; ["ds1"; "dim2"; "lbl2"]; ["ds2"; "dim1"; "lbl3"]].

(** The metabase scenario as a table whose columns carry the names of the
    members. *)
Definition scenario_names : Dict.t string :=
  [("dataset", "dataset"); ("dimension", "dimension"); ("label", "label")].

Definition scenario_table : DataFrame :=
  mkDataFrame ["dataset"; "dimension"; "label"] scenario_rows.

(** A table of contents with two rows for the same code. *)
Definition toc_example : DataFrame :=
  mkDataFrame
    ["title"; "code"; "type"; "data start"; "data end"]
    [["  Population on 1 January "; "demo_pjan"; "dataset"; "1960"; "2016"];
     [" GDP and main components"; "nama_gdp_c"; "dataset"; "1975 "; "2013"];
     ["GDP (second entry)"; "nama_gdp_c"; "dataset"; "1980"; "2014"]].


(** A collection without tables. *)
Definition unloaded_meta : Meta :=
  mkMeta "example.org" (VInt 1) "en" None None None None.

(** A table of strings as a session would return it. *)
Definition raw_of (df : DataFrame) : RawFrame :=
  mkRawFrame (columns df) (map (map CStr) (rows df)).

(** The example table of contents as the file holds it, with the numbers
    of the column [values] at the end. *)
Definition toc_file_example : RawFrame :=
  mkRawFrame (columns toc_example ++ ["values"])%list
             (map (fun r => map CStr r ++ [CNum 12])%list (rows toc_example)).

(** A session in which every read finds the scenario table, or a page
    whose only table is that of the example table of contents. *)
Definition serving_session : Session :=
  mkSession (fun _ => Some (raw_of scenario_table))
            (fun _ => Some [toc_file_example]).

(** An instance that has a [sort] and, for [update_url], the builder of
    [Bulk] in a module where [Session.build_url] is the builder that the
    specification describes. *)
Definition providing_lookup : Lookup :=
  mkLookup (Some (update_url (Some build_url) ["en"; "fr"; "de"] 1))
           (Some (VInt 1)).

(** The member names of the comment in [Meta.__get_member], each naming
    the column of the same name, and a collection that holds the
    scenario rows under these names. *)
Definition meta_names : Dict.t string :=
  [("data", "data"); ("dic", "dic"); ("label", "label")].

Definition loaded_meta : Meta :=
  mkMeta "example.org" (VInt 1) "en"
         (Some (mkDataFrame ["data"; "dic"; "label"] scenario_rows))
         None None None.

(** A collection that holds the scenario rows and two empty stores. *)
Definition stored_meta : Meta :=
  mkMeta "example.org" (VInt 1) "en"
         (Some (mkDataFrame ["data"; "dic"; "label"] scenario_rows))
         None (Some []) (Some []).


(** * Properties *)

(** ** Dictionaries *)

Lemma get_remove_other {V} (k k' : string) (d : Dict.t V) :
  k <> k' -> Dict.get k (Dict.remove k' d) = Dict.get k d.
Proof.
  intros Hne. induction d as [|[k0 v] d IH]; simpl; [reflexivity|].
  destruct (String.eqb_spec k' k0) as [->|Hk0]; simpl.
  - destruct (String.eqb_spec k k0); [contradiction|exact IH].
  - rewrite IH. reflexivity.
Qed.

Lemma remove_absent {V} (k : string) (d : Dict.t V) :
  Dict.get k d = None -> Dict.remove k d = d.
Proof.
  induction d as [|[k0 v] d IH]; simpl; [reflexivity|].
  destruct (String.eqb_spec k k0); simpl; [discriminate|].
  intros H. rewrite (IH H). reflexivity.
Qed.

Lemma remove_remove {V} (k k' : string) (d : Dict.t V) :
  Dict.remove k' (Dict.remove k d)
  = filter (fun kv => negb (String.eqb k (fst kv))
                      && negb (String.eqb k' (fst kv))) d.
Proof.
  unfold Dict.remove. induction d as [|kv d IH]; simpl; [reflexivity|].
  destruct (String.eqb k (fst kv)); simpl; [exact IH|].
  destruct (String.eqb k' (fst kv)); simpl; [exact IH|].
  rewrite IH. reflexivity.
Qed.

Lemma mem_keys {V} (k : string) (d : Dict.t V) :
  Dict.mem k d = true <-> In k (Dict.keys d).
Proof.
  unfold Dict.mem. rewrite existsb_exists. split.
  - intros [x [Hx Heq]]. apply String.eqb_eq in Heq. subst. exact Hx.
  - intros H. exists k. split; [exact H|apply String.eqb_refl].
Qed.

Lemma str_in_In (x : string) (l : list string) :
  str_in x l = true <-> In x l.
Proof.
  unfold str_in. rewrite existsb_exists. split.
  - intros [y [Hy Heq]]. apply String.eqb_eq in Heq. subst. exact Hy.
  - intros H. exists x. split; [exact H|apply String.eqb_refl].
Qed.

Lemma str_in_not_In (x : string) (l : list string) :
  str_in x l = false <-> ~ In x l.
Proof.
  rewrite <- str_in_In. destruct (str_in x l); split; intros H;
    try reflexivity; try discriminate; try congruence.
Qed.

(** ** Strings *)

Lemma append_assoc (a b c : string) : (a ++ b) ++ c = a ++ b ++ c.
Proof.
  induction a as [|x a IH]; simpl; [reflexivity|]. rewrite IH. reflexivity.
Qed.

Lemma append_nil_r (a : string) : a ++ "" = a.
Proof.
  induction a as [|x a IH]; simpl; [reflexivity|]. rewrite IH. reflexivity.
Qed.

(** ** The URL builder *)

(** What [pop_or] returns, whether or not the key is there. *)
Lemma pop_or_eq (k : string) (default : pyval) (kw : kwargs) :
  pop_or k default kw
  = (match Dict.get k kw with Some v => v | None => default end,
     Dict.remove k kw).
Proof.
  unfold pop_or. destruct (Dict.get k kw) eqn:E; [reflexivity|].
  rewrite (remove_absent _ _ E). reflexivity.
Qed.

(** [update_url] on a mapping that is not empty: either the language is
    refused, or the mapping of [sort] followed by the other parameters is
    handed to [Session.build_url]; the call raises [NameError] when the
    name is not bound, and otherwise the URL is what the builder returns,
    followed by the language as a path suffix. *)
Lemma update_url_unfold (S : option (string -> kwargs -> string))
      (LANGS : list string) (DEF_SORT : Z) (domain : string) (kw : kwargs) :
  kw <> [] ->
  update_url S LANGS DEF_SORT domain kw
  = let lang := kwargs_get "lang" kw in
    let sort := match Dict.get "sort" kw with
                | Some v => v
                | None => VInt DEF_SORT
                end in
    let rest := filter (fun kv => negb (String.eqb "lang" (fst kv))
                                  && negb (String.eqb "sort" (fst kv))) kw in
    if negb (is_none lang) && negb (lang_supported LANGS lang)
    then Raise LanguageNotSupported
    else match S with
         | Some builder =>
             Ok (builder domain (("sort", sort) :: rest)
                   ++ (if is_none lang then "" else "/" ++ str lang))
         | None => Raise NameError
         end.
Proof.
  intros Hne. unfold update_url.
  destruct kw as [|kv kw0]; [contradiction|].
  change (Dict.is_empty (kv :: kw0)) with false. cbv iota.
  set (kw := kv :: kw0).
  rewrite (pop_or_eq "lang" VNone kw).
  change (match Dict.get "lang" kw with Some v => v | None => VNone end)
    with (kwargs_get "lang" kw).
  cbv zeta.
  destruct (negb (is_none (kwargs_get "lang" kw))
            && negb (lang_supported LANGS (kwargs_get "lang" kw)));
    [reflexivity|].
  rewrite (pop_or_eq "sort" (VInt DEF_SORT) (Dict.remove "lang" kw)).
  rewrite get_remove_other by discriminate.
  rewrite remove_remove.
  unfold call_build_url. destruct S as [builder|]; cbn [bind];
    [|reflexivity].
  destruct (is_none (kwargs_get "lang" kw)); cbn [negb].
  - rewrite append_nil_r. reflexivity.
  - reflexivity.
Qed.

(** The query string, pair by pair: the first pair, then each further
    pair behind an ampersand. *)
Lemma concat_amp (x : string) (l : list string) :
  String.concat "&" (x :: l)
  = x ++ String.concat "" (map (fun y => "&" ++ y) l).
Proof.
  revert x. induction l as [|y l IH]; intros x.
  - simpl. rewrite append_nil_r. reflexivity.
  - change (String.concat "&" (x :: y :: l))
      with (x ++ "&" ++ String.concat "&" (y :: l)).
    rewrite IH. cbn [map String.concat].
    destruct (map (fun y0 => "&" ++ y0) l) as [|z l'] eqn:E.
    + destruct l; [|discriminate]. simpl. rewrite !append_nil_r. reflexivity.
    + rewrite <- E. rewrite !append_assoc. reflexivity.
Qed.

Lemma urlencode_sort_first (sort : pyval) (rest : kwargs) :
  urlencode (("sort", sort) :: rest)
  = "sort=" ++ quote_plus (str sort)
    ++ String.concat "" (map (fun kv => "&" ++ encode_pair kv) rest).
Proof.
  unfold urlencode. cbn [map]. rewrite concat_amp. rewrite map_map.
  unfold encode_pair at 1. cbn [fst snd].
  change (quote_plus "sort") with "sort".
  rewrite !append_assoc. reflexivity.
Qed.

(** Only a name written in unreserved characters is encoded as that
    name. *)
Lemma quote_plus_inv (k t : string) :
  all_unreserved t = true -> quote_plus k = t -> k = t.
Proof.
  revert t. induction k as [|c k IH]; intros t Ht; simpl.
  - intros <-. reflexivity.
  - unfold quote_char. destruct (is_unreserved c) eqn:Ec.
    + destruct t as [|d t]; simpl; [discriminate|].
      intros H. injection H as <- H.
      simpl in Ht. apply andb_true_iff in Ht. destruct Ht as [_ Ht].
      rewrite (IH t Ht H). reflexivity.
    + destruct (Ascii.eqb c " "); destruct t as [|d t]; simpl;
        try discriminate; intros H; injection H as <- _;
        simpl in Ht; discriminate.
Qed.

Lemma lang_accepted (LANGS : list string) (lang : pyval) :
  negb (is_none lang) && negb (lang_supported LANGS lang) = false <->
  lang = VNone \/ exists l, lang = VStr l /\ In l LANGS.
Proof.
  destruct lang as [|z|l]; simpl.
  - split; [left; reflexivity|reflexivity].
  - split; [discriminate|].
    intros [H|[l [H _]]]; discriminate.
  - rewrite negb_false_iff, str_in_In. split.
    + intros H. right. exists l. split; [reflexivity|exact H].
    + intros [H|[l' [H Hin]]]; [discriminate|]. injection H as ->. exact Hin.
Qed.

(** C2.  As the module is written, [update_url] builds no URL from a
    parameter mapping that is not empty: with a language that is absent,
    [None] or supported, it pops [lang] and [sort], puts [sort] first,
    and then raises [NameError] at the call of [Session.build_url],
    because the module binds no name [Session]; with any other language
    it raises the language-not-supported error. *)
Theorem update_url_raises_for_every_mapping
        (LANGS : list string) (DEF_SORT : Z) (domain : string) (kw : kwargs) :
  kw <> [] ->
  (forall url, update_url module_Session LANGS DEF_SORT domain kw <> Ok url)
  /\ ((kwargs_get "lang" kw = VNone
       \/ exists l, kwargs_get "lang" kw = VStr l /\ In l LANGS) ->
      update_url module_Session LANGS DEF_SORT domain kw = Raise NameError)
  /\ (~ (kwargs_get "lang" kw = VNone
         \/ exists l, kwargs_get "lang" kw = VStr l /\ In l LANGS) ->
      update_url module_Session LANGS DEF_SORT domain kw
      = Raise LanguageNotSupported).
Proof.
  intros Hne. rewrite (update_url_unfold module_Session LANGS DEF_SORT domain Hne).
  cbv zeta. unfold module_Session.
  destruct (negb (is_none (kwargs_get "lang" kw))
            && negb (lang_supported LANGS (kwargs_get "lang" kw))) eqn:Hlang.
  - split; [intros url; discriminate|]. split; [|reflexivity].
    intros Hok. apply lang_accepted in Hok. congruence.
  - split; [intros url; discriminate|]. split; [reflexivity|].
    intros Hbad. exfalso. apply Hbad. apply lang_accepted. exact Hlang.
Qed.

Lemma update_url_raises_for_every_mapping_witness :
  (forall url,
      update_url module_Session ["en"; "fr"; "de"] 1 "example.org"
                 [("dir", VStr "data"); ("lang", VStr "fr");
                  ("start", VStr "a"); ("sort", VInt 2)] <> Ok url)
  /\ ((kwargs_get "lang" [("dir", VStr "data"); ("lang", VStr "fr");
                          ("start", VStr "a"); ("sort", VInt 2)] = VNone
       \/ exists l, kwargs_get "lang" [("dir", VStr "data");
                                       ("lang", VStr "fr");
                                       ("start", VStr "a");
                                       ("sort", VInt 2)] = VStr l
                    /\ In l ["en"; "fr"; "de"]) ->
      update_url module_Session ["en"; "fr"; "de"] 1 "example.org"
                 [("dir", VStr "data"); ("lang", VStr "fr");
                  ("start", VStr "a"); ("sort", VInt 2)]
      = Raise NameError)
  /\ (~ (kwargs_get "lang" [("dir", VStr "data"); ("lang", VStr "fr");
                            ("start", VStr "a"); ("sort", VInt 2)] = VNone
         \/ exists l, kwargs_get "lang" [("dir", VStr "data");
                                         ("lang", VStr "fr");
                                         ("start", VStr "a");
                                         ("sort", VInt 2)] = VStr l
                      /\ In l ["en"; "fr"; "de"]) ->
      update_url module_Session ["en"; "fr"; "de"] 1 "example.org"
                 [("dir", VStr "data"); ("lang", VStr "fr");
                  ("start", VStr "a"); ("sort", VInt 2)]
      = Raise LanguageNotSupported).
Proof.
  apply (@update_url_raises_for_every_mapping
           ["en"; "fr"; "de"] 1 "example.org"
           [("dir", VStr "data"); ("lang", VStr "fr");
            ("start", VStr "a"); ("sort", VInt 2)]).
  discriminate.
Defined.

(** C5.  As the module is written, with the default sort value 1 and
    [en] a supported language, the call of [update_url] with the domain
    [example.org] and the parameters [lang = en], [dir = data] raises
    [NameError] and returns no URL. *)
Theorem update_url_example_org_raises (LANGS : list string) :
  In "en" LANGS ->
  update_url module_Session LANGS 1 "example.org"
             [("lang", VStr "en"); ("dir", VStr "data")]
  = Raise NameError.
Proof.
  intros Hen. apply str_in_In in Hen.
  rewrite update_url_unfold by discriminate.
  change (kwargs_get "lang" [("lang", VStr "en"); ("dir", VStr "data")])
    with (VStr "en").
  cbv zeta. unfold lang_supported. rewrite Hen. reflexivity.
Qed.

Lemma update_url_example_org_raises_witness :
  In "en" ["en"; "fr"; "de"]
  /\ update_url module_Session ["en"; "fr"; "de"] 1 "example.org"
                [("lang", VStr "en"); ("dir", VStr "data")]
     = Raise NameError.
Proof.
  split.
  - simpl. left. reflexivity.
  - apply (@update_url_example_org_raises ["en"; "fr"; "de"]).
    simpl. left. reflexivity.
Defined.

(** *** The method in a module that binds [Session] *)

(** In a module where [Session.build_url] is the builder that the
    specification describes, as the earlier [collection.py] imports it,
    the method body gives the URLs of the specification: [sort] first,
    the other parameters in their order, the language as a suffix. *)
Lemma bound_update_url_sort_first
      (LANGS : list string) (DEF_SORT : Z) (domain : string)
      (kw : kwargs) (url : string) :
  kw <> [] ->
  update_url (Some build_url) LANGS DEF_SORT domain kw = Ok url ->
  exists (sort : pyval) (rest : kwargs) (suffix : string),
    url = domain ++ "?" ++ urlencode (("sort", sort) :: rest) ++ suffix
    /\ urlencode (("sort", sort) :: rest)
       = "sort=" ++ quote_plus (str sort)
         ++ String.concat "" (map (fun kv => "&" ++ encode_pair kv) rest)
    /\ rest = filter (fun kv => negb (String.eqb "lang" (fst kv))
                                && negb (String.eqb "sort" (fst kv))) kw
    /\ ((kwargs_get "lang" kw = VNone /\ suffix = "")
        \/ (exists l, kwargs_get "lang" kw = VStr l /\ In l LANGS
                      /\ suffix = "/" ++ l)).
Proof.
  intros Hne Hurl.
  rewrite (update_url_unfold (Some build_url) LANGS DEF_SORT domain Hne)
    in Hurl.
  cbv zeta in Hurl.
  destruct (negb (is_none (kwargs_get "lang" kw))
            && negb (lang_supported LANGS (kwargs_get "lang" kw))) eqn:Hlang;
    [discriminate|].
  injection Hurl as <-.
  eexists _, _, _. split.
  { unfold build_url. change (Dict.is_empty (_ :: _)) with false. cbv iota.
    rewrite !append_assoc. reflexivity. }
  split; [apply urlencode_sort_first|].
  split; [reflexivity|].
  apply lang_accepted in Hlang.
  destruct Hlang as [Hnone|[l [Hl Hin]]].
  - left. rewrite Hnone. split; reflexivity.
  - right. exists l. rewrite Hl. repeat split; [exact Hin].
Qed.

Lemma bound_update_url_example_org :
  update_url (Some build_url) ["en"; "fr"; "de"] 1 "example.org"
             [("lang", VStr "en"); ("dir", VStr "data")]
  = Ok "example.org?sort=1&dir=data/en".
Proof. vm_compute. reflexivity. Qed.



(** ** Tables *)

Lemma unique_In (x : string) (l : list string) :
  In x (unique l) <-> In x l.
Proof.
  induction l as [|y l IH]; simpl; [tauto|].
  rewrite filter_In, IH, negb_true_iff, String.eqb_neq.
  destruct (string_dec y x) as [->|Hne]; [tauto|].
  split.
  - intros [H|[H _]]; [left; exact H|right; exact H].
  - intros [H|H]; [contradiction|]. right. split; [exact H|].
    intros ->. apply Hne. reflexivity.
Qed.

Lemma NoDup_filter {A} (f : A -> bool) (l : list A) :
  NoDup l -> NoDup (filter f l).
Proof.
  induction 1 as [|x l Hx Hl IH]; simpl; [constructor|].
  destruct (f x); [|exact IH].
  constructor; [|exact IH]. rewrite filter_In. tauto.
Qed.

Lemma unique_NoDup (l : list string) : NoDup (unique l).
Proof.
  induction l as [|y l IH]; simpl; constructor.
  - rewrite filter_In, String.eqb_refl. simpl. intros [_ H]. discriminate.
  - apply NoDup_filter. exact IH.
Qed.

Lemma indices_some (cols keys : list string) :
  (forall k, In k keys -> index_of k cols <> None) ->
  exists idxs, indices cols keys = Some idxs.
Proof.
  induction keys as [|k keys IH]; intros H; simpl; [eexists; reflexivity|].
  destruct (index_of k cols) as [i|] eqn:Ei.
  - destruct IH as [idxs ->]; [intros k' Hk'; apply H; right; exact Hk'|].
    eexists. reflexivity.
  - exfalso. apply (H k); [left; reflexivity|exact Ei].
Qed.

Lemma in_group_satisfies (cols : list string) (kw : kwargs)
      (keys : list string) (idxs : list nat) (row : list string) :
  indices cols keys = Some idxs ->
  in_group idxs (map (fun k => kwargs_get k kw) keys) row
  = satisfies cols kw keys row.
Proof.
  revert idxs. induction keys as [|k keys IH]; intros idxs H; simpl in *.
  - injection H as <-. reflexivity.
  - destruct (index_of k cols) as [i|]; [|discriminate].
    destruct (indices cols keys) as [l|]; [|discriminate].
    injection H as <-. simpl. rewrite (IH l eq_refl). reflexivity.
Qed.

Lemma forallb_same_elements {A} (f : A -> bool) (l1 l2 : list A) :
  (forall x, In x l1 <-> In x l2) -> forallb f l1 = forallb f l2.
Proof.
  intros H.
  destruct (forallb f l1) eqn:E1; destruct (forallb f l2) eqn:E2;
    try reflexivity.
  - rewrite forallb_forall in E1.
    assert (forallb f l2 = true) as E
        by (apply forallb_forall; intros x Hx; apply E1, H, Hx).
    congruence.
  - rewrite forallb_forall in E2.
    assert (forallb f l1 = true) as E
        by (apply forallb_forall; intros x Hx; apply E2, H, Hx).
    congruence.
Qed.

Lemma column_at (cols : list string) (sel : list (list string))
      (name : string) (i : nat) :
  index_of name cols = Some i ->
  column (mkDataFrame cols sel) name = Ok (map (cell i) sel).
Proof. intros H. unfold column. simpl. rewrite H. reflexivity. Qed.

(** ** The resolver *)

Lemma enumerates_nil (f : list string -> list string) :
  enumerates f -> f [] = [].
Proof.
  intros H. destruct (f []) as [|x l] eqn:E; [reflexivity|].
  exfalso. apply (proj1 (H [] x)). rewrite E. left. reflexivity.
Qed.

Lemma enumerates_cons (f : list string -> list string)
      (x : string) (l : list string) :
  enumerates f -> f (x :: l) <> [].
Proof.
  intros H E. assert (Hin : In x (f (x :: l))) by (apply H; left; reflexivity).
  rewrite E in Hin. destruct Hin.
Qed.

(** The resolver on a loaded table, for a member that is a column and is
    no keyword, and constraints that are columns: without constraints,
    the distinct values of the member column; with constraints, the
    distinct values of the member column in the rows that satisfy all of
    them, and [KeyError] when there is no such row.  The order in which
    the set of constraint names is listed does not matter. *)
Lemma get_member_resolve (names : Dict.t string)
      (set_order : list string -> list string) (df : DataFrame)
      (member : string) (kw : kwargs) (im : nat) :
  enumerates set_order ->
  In member (Dict.keys names) ->
  ~ In member (Dict.keys kw) ->
  index_of member (columns df) = Some im ->
  (forall k, In k (constrained names kw) -> index_of k (columns df) <> None) ->
  get_member names set_order member (Some df) kw
  = match constrained names kw with
    | [] => Ok (unique (map (cell im) (rows df)))
    | keys =>
        match filter (satisfies (columns df) kw keys) (rows df) with
        | [] => Raise KeyError
        | sel => Ok (unique (map (cell im) sel))
        end
    end.
Proof.
  intros Henum Hmem Hkw Him Hcols.
  unfold get_member, members.
  apply str_in_In in Hmem. rewrite Hmem. cbn [negb].
  destruct (Dict.mem member kw) eqn:Em;
    [exfalso; apply Hkw, mem_keys, Em|].
  unfold group_keys, members.
  fold (constrained names kw).
  destruct (constrained names kw) as [|k0 ks] eqn:Ec.
  - rewrite (enumerates_nil Henum). cbn [bind].
    destruct df as [cols rws]. simpl in Him.
    rewrite (column_at _ _ _ Him). reflexivity.
  - pose proof (enumerates_cons k0 ks Henum) as Hne.
    destruct (set_order (k0 :: ks)) as [|g gs] eqn:Eg; [contradiction|].
    rewrite <- Eg. unfold get_group. rewrite Eg at 1.
    destruct (indices_some (columns df) (set_order (k0 :: ks))) as [idxs Hidx].
    { intros k Hk. apply Hcols. apply Henum. exact Hk. }
    rewrite Hidx.
    rewrite (filter_ext _ (satisfies (columns df) kw (k0 :: ks))).
    2:{ intros row. rewrite (in_group_satisfies _ _ _ _ Hidx).
        apply forallb_same_elements. apply Henum. }
    destruct (filter (satisfies (columns df) kw (k0 :: ks)) (rows df))
      as [|r sel]; [reflexivity|].
    cbn [bind]. rewrite (column_at _ _ _ Him). reflexivity.
Qed.

Lemma satisfies_two (cols : list string) (k1 k2 v1 v2 : string)
      (i1 i2 : nat) (row : list string) :
  k1 <> k2 ->
  index_of k1 cols = Some i1 ->
  index_of k2 cols = Some i2 ->
  satisfies cols [(k1, VStr v1); (k2, VStr v2)] [k1; k2] row
  = String.eqb (cell i1 row) v1 && String.eqb (cell i2 row) v2.
Proof.
  intros Hne H1 H2. unfold satisfies, kwargs_get. cbn [forallb Dict.get].
  rewrite H1, H2, !String.eqb_refl.
  apply not_eq_sym in Hne. apply String.eqb_neq in Hne. rewrite Hne.
  cbn [cell_is]. rewrite andb_true_r. reflexivity.
Qed.

Lemma constrained_two (names : Dict.t string) (k1 k2 : string)
      (v1 v2 : pyval) :
  In k1 (Dict.keys names) -> In k2 (Dict.keys names) ->
  constrained names [(k1, v1); (k2, v2)] = [k1; k2].
Proof.
  intros H1 H2. apply str_in_In in H1, H2.
  unfold constrained. cbn [Dict.keys map fst filter].
  rewrite H1, H2. reflexivity.
Qed.

(** On the scenario table the query for the labels of dataset [ds2] and
    dimension [dim2], a combination no row carries although each value
    occurs in the table, raises [KeyError]: it does not return the empty
    list. *)
Lemma get_member_absent_combination_raises :
  get_member scenario_names (fun l => l) "label" (Some scenario_table)
             [("dataset", VStr "ds2"); ("dimension", VStr "dim2")]
  = Raise KeyError.
Proof. vm_compute. reflexivity. Qed.

(** C1 (amended).  On a loaded table, a query for a member under two
    constraints, on two other members that are columns of the table:
    when some row carries both required values, the result lists without
    repetition exactly the member values of the rows that carry both;
    when no row carries both, the query raises [KeyError].  This holds
    for every order in which the set of constraint names is listed. *)
Theorem get_member_two_constraints
        (names : Dict.t string) (set_order : list string -> list string)
        (df : DataFrame) (member k1 k2 v1 v2 : string) (im i1 i2 : nat) :
  enumerates set_order ->
  In member (Dict.keys names) ->
  In k1 (Dict.keys names) ->
  In k2 (Dict.keys names) ->
  member <> k1 -> member <> k2 -> k1 <> k2 ->
  index_of member (columns df) = Some im ->
  index_of k1 (columns df) = Some i1 ->
  index_of k2 (columns df) = Some i2 ->
  let query := get_member names set_order member (Some df)
                          [(k1, VStr v1); (k2, VStr v2)] in
  let both := fun r => In r (rows df) /\ cell i1 r = v1 /\ cell i2 r = v2 in
  ((exists r, both r) ->
   exists vals,
     query = Ok vals
     /\ NoDup vals
     /\ forall x, In x vals <-> exists r, both r /\ cell im r = x)
  /\ ((forall r, ~ both r) -> query = Raise KeyError).
Proof.
  intros Henum Hm Hk1 Hk2 Hm1 Hm2 H12 Him Hi1 Hi2 query both.
  assert (Hq : query
               = match filter (fun r => String.eqb (cell i1 r) v1
                                        && String.eqb (cell i2 r) v2)
                              (rows df) with
                 | [] => Raise KeyError
                 | sel => Ok (unique (map (cell im) sel))
                 end).
  { unfold query.
    rewrite (@get_member_resolve names set_order df member _ im Henum Hm).
    - rewrite (@constrained_two names k1 k2 (VStr v1) (VStr v2) Hk1 Hk2).
      rewrite (filter_ext _ (fun r => String.eqb (cell i1 r) v1
                                      && String.eqb (cell i2 r) v2)).
      + reflexivity.
      + intros r. apply satisfies_two; assumption.
    - simpl. intros [H|[H|[]]]; congruence.
    - exact Him.
    - rewrite (@constrained_two names k1 k2 (VStr v1) (VStr v2) Hk1 Hk2).
      intros k [<-|[<-|[]]]; congruence. }
  assert (Hsel : forall r,
             In r (filter (fun r => String.eqb (cell i1 r) v1
                                    && String.eqb (cell i2 r) v2) (rows df))
             <-> both r).
  { intros r. unfold both.
    rewrite filter_In, andb_true_iff, !String.eqb_eq. reflexivity. }
  rewrite Hq. clear Hq.
  destruct (filter (fun r => String.eqb (cell i1 r) v1
                             && String.eqb (cell i2 r) v2) (rows df))
    as [|r0 sel] eqn:Esel.
  - split.
    + intros [r Hr]. apply Hsel in Hr. destruct Hr.
    + reflexivity.
  - split.
    + intros _. eexists. split; [reflexivity|].
      split; [apply unique_NoDup|].
      intros x. rewrite unique_In, in_map_iff. split.
      * intros [r [Hx Hr]]. exists r. split; [apply Hsel, Hr|exact Hx].
      * intros [r [Hr Hx]]. exists r. split; [exact Hx|apply Hsel, Hr].
    + intros Hnone. exfalso. apply (Hnone r0). apply Hsel. left. reflexivity.
Qed.

Lemma get_member_two_constraints_witness :
  let query := get_member scenario_names (fun l => rev l) "label"
                          (Some scenario_table)
                          [("dataset", VStr "ds1"); ("dimension", VStr "dim2")] in
  let both := fun r => In r (rows scenario_table)
                       /\ cell 0 r = "ds1" /\ cell 1 r = "dim2" in
  ((exists r, both r) ->
   exists vals,
     query = Ok vals
     /\ NoDup vals
     /\ forall x, In x vals <-> exists r, both r /\ cell 2 r = x)
  /\ ((forall r, ~ both r) -> query = Raise KeyError).
Proof.
  apply (@get_member_two_constraints
           scenario_names (fun l => rev l) scenario_table
           "label" "dataset" "dimension" "ds1" "dim2" 2 0 1).
  - intros l x. symmetry. apply in_rev.
  - simpl. right. right. left. reflexivity.
  - simpl. left. reflexivity.
  - simpl. right. left. reflexivity.
  - discriminate.
  - discriminate.
  - discriminate.
  - reflexivity.
  - reflexivity.
  - reflexivity.
Defined.

(** Decides the comparisons of member names met while a query is
    evaluated on a table whose column names are variables. *)
Ltac names_eqb :=
  repeat first
    [ rewrite String.eqb_refl
    | match goal with
      | |- context [String.eqb ?a ?b] =>
          rewrite (proj2 (String.eqb_neq a b)) by congruence
      end ].

Ltac eval_query :=
  unfold constrained, satisfies, kwargs_get, str_in;
  do 4 (cbn; names_eqb).

(** C6.  On the three-row scenario table, whatever the three distinct
    names of the members are and in whatever order the set of constraint
    names is listed: the datasets under the constraint [dimension = dim1]
    are [ds1] and [ds2], and the labels under the constraints
    [dataset = ds1] and [dimension = dim2] are [lbl2] alone. *)
Theorem get_member_scenario
        (set_order : list string -> list string)
        (dataset_ dimension_ label_ c1 c2 c3 : string) :
  enumerates set_order ->
  dataset_ <> dimension_ -> dataset_ <> label_ -> dimension_ <> label_ ->
  let names := [(dataset_, c1); (dimension_, c2); (label_, c3)] in
  let table := mkDataFrame [dataset_; dimension_; label_] scenario_rows in
  get_member names set_order dataset_ (Some table)
             [(dimension_, VStr "dim1")]
  = Ok ["ds1"; "ds2"]
  /\ get_member names set_order label_ (Some table)
                [(dataset_, VStr "ds1"); (dimension_, VStr "dim2")]
     = Ok ["lbl2"].
Proof.
  intros Henum H12 H13 H23 names table. split.
  - rewrite (@get_member_resolve names set_order table dataset_ _ 0 Henum).
    + unfold names, table. eval_query. reflexivity.
    + simpl. left. reflexivity.
    + simpl. intros [H|[]]. congruence.
    + unfold table. eval_query. reflexivity.
    + unfold names, table. eval_query.
      intros k [<-|[]]. names_eqb. discriminate.
  - rewrite (@get_member_resolve names set_order table label_ _ 2 Henum).
    + unfold names, table. eval_query. reflexivity.
    + simpl. right. right. left. reflexivity.
    + simpl. intros [H|[H|[]]]; congruence.
    + unfold table. eval_query. reflexivity.
    + unfold names, table. eval_query.
      intros k [<-|[<-|[]]]; names_eqb; discriminate.
Qed.

Lemma get_member_scenario_witness :
  let names := [("dataset", "dataset"); ("dimension", "dimension");
                ("label", "label")] in
  let table := mkDataFrame ["dataset"; "dimension"; "label"] scenario_rows in
  get_member names (fun l => rev l) "dataset" (Some table)
             [("dimension", VStr "dim1")]
  = Ok ["ds1"; "ds2"]
  /\ get_member names (fun l => rev l) "label" (Some table)
                [("dataset", VStr "ds1"); ("dimension", VStr "dim2")]
     = Ok ["lbl2"].
Proof.
  apply (@get_member_scenario (fun l => rev l)
           "dataset" "dimension" "label" "dataset" "dimension" "label").
  - intros l x. symmetry. apply in_rev.
  - discriminate.
  - discriminate.
  - discriminate.
Defined.

(** On a loaded but empty table a query with a constraint raises: it does
    not return the empty list. *)
Lemma get_member_empty_table_constrained_raises :
  get_member scenario_names (fun l => l) "label"
             (Some (mkDataFrame ["dataset"; "dimension"; "label"] []))
             [("dimension", VStr "dim1")]
  = Raise KeyError.
Proof. vm_compute. reflexivity. Qed.

Lemma get_group_empty (cols keys : list string) (vals : list pyval) :
  keys <> [] ->
  get_group (mkDataFrame cols []) keys vals = Raise KeyError.
Proof.
  intros Hne. unfold get_group. destruct keys as [|k keys]; [contradiction|].
  cbn [columns rows filter].
  destruct (indices cols (k :: keys)); reflexivity.
Qed.

(** C3 (amended).  Without a metabase every query raises the
    metabase-not-found error, and no query on a loaded table raises it,
    so that the two states are told apart.  On a loaded table without
    rows, a query for a member that is a column returns the empty list
    when no keyword names a member, and raises [KeyError] when one does.
    The resolver is a function of the member, the table and the keywords
    alone: it has no session to load anything with. *)
Theorem get_member_not_loaded_vs_empty
        (names : Dict.t string) (set_order : list string -> list string)
        (member : string) (kw : kwargs) (cols : list string) :
  enumerates set_order ->
  In member (Dict.keys names) ->
  ~ In member (Dict.keys kw) ->
  In member cols ->
  get_member names set_order member None kw = Raise MetabaseNotFound
  /\ (forall (m : string) (df : DataFrame) (kw' : kwargs),
         get_member names set_order m None kw' = Raise MetabaseNotFound
         /\ get_member names set_order m (Some df) kw'
            <> Raise MetabaseNotFound)
  /\ ((forall k, In k (Dict.keys kw) -> ~ In k (Dict.keys names)) ->
      get_member names set_order member (Some (mkDataFrame cols [])) kw
      = Ok [])
  /\ ((exists k, In k (Dict.keys kw) /\ In k (Dict.keys names)) ->
      get_member names set_order member (Some (mkDataFrame cols [])) kw
      = Raise KeyError).
Proof.
  intros Henum Hm Hkw Hcol.
  split; [reflexivity|].
  split.
  { intros m df kw'. split; [reflexivity|].
    unfold get_member.
    destruct (negb (str_in m (members names))); [discriminate|].
    destruct (Dict.mem m kw'); [discriminate|].
    destruct (group_keys names set_order kw') as [|g gs].
    - cbn [bind]. unfold column.
      destruct (index_of m (columns df)); cbn [bind]; discriminate.
    - unfold get_group.
      destruct (indices (columns df) (g :: gs)); [|discriminate].
      destruct (filter _ (rows df)); [discriminate|].
      cbn [bind]. unfold column. cbn [columns].
      destruct (index_of m (columns df)); cbn [bind]; discriminate. }
  assert (Hidx : exists im, index_of member cols = Some im).
  { clear - Hcol. induction cols as [|c cols IH]; [destruct Hcol|].
    simpl. destruct (String.eqb_spec member c) as [_|Hne].
    - eexists. reflexivity.
    - destruct Hcol as [->|Hin]; [contradiction|].
      destruct (IH Hin) as [i ->]. eexists. reflexivity. }
  destruct Hidx as [im Him].
  assert (Hhead :
            get_member names set_order member (Some (mkDataFrame cols [])) kw
            = (group <- match group_keys names set_order kw with
                        | [] => Ok (mkDataFrame cols [])
                        | g :: gs =>
                            get_group (mkDataFrame cols []) (g :: gs)
                              (map (fun k => kwargs_get k kw) (g :: gs))
                        end ;;
               col <- column group member ;; Ok (unique col))).
  { unfold get_member.
    apply str_in_In in Hm. unfold members. rewrite Hm. cbn [negb].
    destruct (Dict.mem member kw) eqn:Em;
      [exfalso; apply Hkw, mem_keys, Em|].
    destruct (group_keys names set_order kw); reflexivity. }
  rewrite Hhead. clear Hhead.
  unfold group_keys, members. fold (constrained names kw).
  split.
  - intros Hnone.
    assert (Hc : constrained names kw = []).
    { unfold constrained.
      destruct (filter _ (Dict.keys kw)) as [|k ks] eqn:E; [reflexivity|].
      exfalso. assert (Hk : In k (k :: ks)) by (left; reflexivity).
      rewrite <- E in Hk. apply filter_In in Hk. destruct Hk as [Hk Hn].
      apply str_in_In in Hn. exact (Hnone k Hk Hn). }
    rewrite Hc, (enumerates_nil Henum). cbn [bind].
    rewrite (column_at _ _ _ Him). reflexivity.
  - intros [k [Hk Hn]].
    assert (Hin : In k (set_order (constrained names kw))).
    { apply Henum. unfold constrained. apply filter_In.
      split; [exact Hk|apply str_in_In, Hn]. }
    destruct (set_order (constrained names kw)) as [|g gs];
      [destruct Hin|].
    rewrite get_group_empty by discriminate. reflexivity.
Qed.

Lemma get_member_not_loaded_vs_empty_witness :
  get_member scenario_names (fun l => rev l) "dataset" None
             [("dimension", VStr "dim1"); ("lang", VStr "en")]
  = Raise MetabaseNotFound
  /\ (forall (m : string) (df : DataFrame) (kw' : kwargs),
         get_member scenario_names (fun l => rev l) m None kw'
         = Raise MetabaseNotFound
         /\ get_member scenario_names (fun l => rev l) m (Some df) kw'
            <> Raise MetabaseNotFound)
  /\ ((forall k, In k (Dict.keys [("dimension", VStr "dim1");
                                  ("lang", VStr "en")]) ->
                 ~ In k (Dict.keys scenario_names)) ->
      get_member scenario_names (fun l => rev l) "dataset"
                 (Some (mkDataFrame ["dataset"; "dimension"; "label"] []))
                 [("dimension", VStr "dim1"); ("lang", VStr "en")]
      = Ok [])
  /\ ((exists k, In k (Dict.keys [("dimension", VStr "dim1");
                                  ("lang", VStr "en")])
                 /\ In k (Dict.keys scenario_names)) ->
      get_member scenario_names (fun l => rev l) "dataset"
                 (Some (mkDataFrame ["dataset"; "dimension"; "label"] []))
                 [("dimension", VStr "dim1"); ("lang", VStr "en")]
      = Raise KeyError).
Proof.
  apply (@get_member_not_loaded_vs_empty
           scenario_names (fun l => rev l) "dataset"
           [("dimension", VStr "dim1"); ("lang", VStr "en")]
           ["dataset"; "dimension"; "label"]).
  - intros l x. symmetry. apply in_rev.
  - simpl. left. reflexivity.
  - simpl. intros [H|[H|[]]]; discriminate.
  - simpl. left. reflexivity.
Defined.

(** C7.  On a loaded table, whatever its contents, a query whose keywords
    contain the member asked for, a member the settings know, raises the
    error that the member must not be passed as a keyword argument. *)
Theorem get_member_target_as_constraint
        (names : Dict.t string) (set_order : list string -> list string)
        (df : DataFrame) (member : string) (kw : kwargs) :
  In member (Dict.keys names) ->
  In member (Dict.keys kw) ->
  get_member names set_order member (Some df) kw = Raise MemberAsKeyword.
Proof.
  intros Hm Hkw. unfold get_member, members.
  apply str_in_In in Hm. rewrite Hm. cbn [negb].
  apply mem_keys in Hkw. rewrite Hkw. reflexivity.
Qed.

Lemma get_member_target_as_constraint_witness :
  get_member scenario_names (fun l => l) "label" (Some scenario_table)
             [("dimension", VStr "dim1"); ("label", VStr "lbl1")]
  = Raise MemberAsKeyword.
Proof.
  apply (@get_member_target_as_constraint
           scenario_names (fun l => l) scenario_table "label"
           [("dimension", VStr "dim1"); ("label", VStr "lbl1")]).
  - simpl. right. right. left. reflexivity.
  - simpl. right. left. reflexivity.
Defined.

(** ** Trimming *)

Lemma lstrip_split (s : string) :
  exists l, s = l ++ lstrip s /\ all_space l = true.
Proof.
  induction s as [|c s IH]; simpl.
  - exists "". split; reflexivity.
  - destruct (is_space c) eqn:Ec.
    + destruct IH as [l [Hs Hl]]. exists (String c l). simpl.
      rewrite <- Hs, Ec, Hl. split; reflexivity.
    + exists "". split; reflexivity.
Qed.

Lemma lstrip_head (s : string) (c : ascii) (t : string) :
  lstrip s = String c t -> is_space c = false.
Proof.
  induction s as [|d s IH]; simpl; [discriminate|].
  destruct (is_space d) eqn:Ed; [exact IH|].
  intros H. injection H as <- _. exact Ed.
Qed.

Lemma rstrip_split (s : string) :
  exists r, s = rstrip s ++ r /\ all_space r = true.
Proof.
  induction s as [|c s IH]; simpl.
  - exists "". split; reflexivity.
  - destruct IH as [r [Hs Hr]].
    destruct (rstrip s) as [|d u] eqn:Eu.
    + simpl in Hs. subst r. destruct (is_space c) eqn:Ec.
      * exists (String c s). simpl. rewrite Ec, Hr. split; reflexivity.
      * exists s. split; [reflexivity|exact Hr].
    + exists r. simpl. rewrite Hs at 1. split; [reflexivity|exact Hr].
Qed.

Lemma rstrip_head (s : string) (c : ascii) (t : string) :
  rstrip s = String c t -> exists t', s = String c t'.
Proof.
  destruct s as [|d s]; simpl; [discriminate|].
  destruct (rstrip s).
  - destruct (is_space d); [discriminate|].
    intros H. injection H as <- _. eexists. reflexivity.
  - intros H. injection H as <- _. eexists. reflexivity.
Qed.

Lemma append_last_nonempty (u : string) (c : ascii) : u ++ String c "" <> "".
Proof. destruct u; discriminate. Qed.

Lemma rstrip_last (s u : string) (c : ascii) :
  rstrip s = u ++ String c "" -> is_space c = false.
Proof.
  revert u. induction s as [|d s IH]; intros u; simpl.
  - intros H. symmetry in H. exfalso. exact (append_last_nonempty _ _ H).
  - destruct (rstrip s) as [|e r] eqn:Er.
    + destruct (is_space d) eqn:Ed.
      * intros H. symmetry in H. exfalso. exact (append_last_nonempty _ _ H).
      * destruct u as [|x u]; simpl; intros H.
        -- injection H as <-. exact Ed.
        -- injection H as _ H. symmetry in H. exfalso.
           exact (append_last_nonempty _ _ H).
    + destruct u as [|x u]; simpl; intros H.
      * discriminate.
      * injection H as _ H. apply (IH u). exact H.
Qed.

(** [t.lstrip().rstrip()] is [t] without the white space around it. *)
Lemma strip_trimmed (t : string) :
  exists l r,
    t = l ++ rstrip (lstrip t) ++ r
    /\ all_space l = true
    /\ all_space r = true
    /\ (forall c u, rstrip (lstrip t) = String c u -> is_space c = false)
    /\ (forall u c, rstrip (lstrip t) = u ++ String c "" ->
                    is_space c = false).
Proof.
  destruct (lstrip_split t) as [l [Hl Hls]].
  destruct (rstrip_split (lstrip t)) as [r [Hr Hrs]].
  exists l, r. split; [rewrite <- Hr; exact Hl|].
  split; [exact Hls|]. split; [exact Hrs|]. split.
  - intros c u H. apply rstrip_head in H. destruct H as [t' H].
    eapply lstrip_head. exact H.
  - intros u c H. eapply rstrip_last. exact H.
Qed.

(** ** Table-of-contents lookup *)

Lemma str_in_map_cell (member : string) (i : nat) (rws : list (list string)) :
  str_in member (map (cell i) rws) = true
  <-> exists r, In r rws /\ cell i r = member.
Proof.
  rewrite str_in_In, in_map_iff.
  split; intros [r [H1 H2]]; exists r; split; assumption.
Qed.

Lemma get_content_absent (df : DataFrame) (member : string) (ic : nat) :
  index_of "code" (columns df) = Some ic ->
  (forall r, In r (rows df) -> cell ic r <> member) ->
  get_content member (Some df) = Raise MemberNotInToc.
Proof.
  intros Hic Habs. unfold get_content. rewrite Hic.
  destruct (str_in member (map (cell ic) (rows df))) eqn:E; [|reflexivity].
  apply str_in_map_cell in E. destruct E as [r [Hr Hc]].
  exfalso. exact (Habs r Hr Hc).
Qed.

Lemma filter_none {A} (f : A -> bool) (l : list A) :
  (forall x, In x l -> f x = false) -> filter f l = [].
Proof.
  induction l as [|x l IH]; intros H; simpl; [reflexivity|].
  rewrite (H x) by (left; reflexivity).
  apply IH. intros y Hy. apply H. right. exact Hy.
Qed.

Lemma get_content_first (df : DataFrame) (member : string) (ic : nat)
      (before after : list (list string)) (r : list string) :
  index_of "code" (columns df) = Some ic ->
  rows df = (before ++ r :: after)%list ->
  cell ic r = member ->
  (forall r', In r' before -> cell ic r' <> member) ->
  exists others,
    get_content member (Some df)
    = Ok (mkDataFrame (columns df) (r :: others)).
Proof.
  intros Hic Hrows Hr Hbefore. unfold get_content. rewrite Hic.
  assert (E : str_in member (map (cell ic) (rows df)) = true).
  { apply str_in_map_cell. exists r. split; [|exact Hr].
    rewrite Hrows. apply in_elt. }
  rewrite E. cbn [negb]. unfold select_eq. rewrite Hrows, filter_app.
  rewrite filter_none.
  - cbn [filter app]. rewrite Hr, String.eqb_refl. eexists. reflexivity.
  - intros r' Hr'. apply String.eqb_neq. exact (Hbefore r' Hr').
Qed.

(** C9.  On a loaded table of contents that has the columns [code],
    [title], [data start] and [data end]: the lookup of a code that no
    row carries raises the member-not-found error, in [getTitle] and in
    [getPeriod]; the lookup of a code that some row carries returns, from
    the first such row, the title without the white space around it and
    the pair of the start and the end of the period as the table stores
    them. *)
Theorem toc_lookup (df : DataFrame) (member : string)
        (ic it ist ie : nat) :
  index_of "code" (columns df) = Some ic ->
  index_of "title" (columns df) = Some it ->
  index_of "data start" (columns df) = Some ist ->
  index_of "data end" (columns df) = Some ie ->
  ((forall r, In r (rows df) -> cell ic r <> member) ->
   getTitle (Some df) member = Raise MemberNotInToc
   /\ getPeriod (Some df) member = Raise MemberNotInToc)
  /\ (forall before r after,
         rows df = (before ++ r :: after)%list ->
         cell ic r = member ->
         (forall r', In r' before -> cell ic r' <> member) ->
         getPeriod (Some df) member = Ok [cell ist r; cell ie r]
         /\ exists title l w,
             getTitle (Some df) member = Ok title
             /\ cell it r = l ++ title ++ w
             /\ all_space l = true
             /\ all_space w = true
             /\ (forall c u, title = String c u -> is_space c = false)
             /\ (forall u c, title = u ++ String c "" ->
                             is_space c = false)).
Proof.
  intros Hic Hit Hist Hie. split.
  - intros Habs. unfold getTitle, getPeriod.
    rewrite (@get_content_absent df member ic Hic Habs). split; reflexivity.
  - intros before r after Hrows Hr Hbefore.
    destruct (@get_content_first df member ic before after r
                                 Hic Hrows Hr Hbefore) as [others Hres].
    unfold getTitle, getPeriod. rewrite Hres. cbn [bind].
    rewrite (column_at _ _ _ Hit), (column_at _ _ _ Hist),
      (column_at _ _ _ Hie).
    cbn [bind map first_cell]. split; [reflexivity|].
    destruct (strip_trimmed (cell it r)) as [l [w H]].
    exists (rstrip (lstrip (cell it r))), l, w.
    split; [reflexivity|exact H].
Qed.

Lemma toc_lookup_witness :
  ((forall r, In r (rows toc_example) -> cell 1 r <> "nama_gdp_c") ->
   getTitle (Some toc_example) "nama_gdp_c" = Raise MemberNotInToc
   /\ getPeriod (Some toc_example) "nama_gdp_c" = Raise MemberNotInToc)
  /\ (forall before r after,
         rows toc_example = (before ++ r :: after)%list ->
         cell 1 r = "nama_gdp_c" ->
         (forall r', In r' before -> cell 1 r' <> "nama_gdp_c") ->
         getPeriod (Some toc_example) "nama_gdp_c" = Ok [cell 3 r; cell 4 r]
         /\ exists title l w,
             getTitle (Some toc_example) "nama_gdp_c" = Ok title
             /\ cell 0 r = l ++ title ++ w
             /\ all_space l = true
             /\ all_space w = true
             /\ (forall c u, title = String c u -> is_space c = false)
             /\ (forall u c, title = u ++ String c "" ->
                             is_space c = false)).
Proof.
  apply (@toc_lookup toc_example "nama_gdp_c" 1 0 3 4); reflexivity.
Defined.

(** The lookups on the example table: the first of the two rows of the
    code answers, and an unknown code is refused. *)
Example toc_lookup_example :
  getTitle (Some toc_example) "nama_gdp_c" = Ok "GDP and main components"
  /\ getPeriod (Some toc_example) "nama_gdp_c" = Ok ["1975 "; "2013"]
  /\ getTitle (Some toc_example) "demo_pjan" = Ok "Population on 1 January"
  /\ getTitle (Some toc_example) "tps00001" = Raise MemberNotInToc
  /\ getPeriod (Some toc_example) "tps00001" = Raise MemberNotInToc
  /\ getTitle None "demo_pjan" = Raise TocNotFound.
Proof. repeat split; vm_compute; reflexivity. Qed.

(** ** Loading *)







(** ** Indexing the collection *)

(** A string item raises when no metabase is loaded, and also when the
    item is a loaded dimension but the collection has no store for it. *)
Lemma getitem_string_raises :
  getitem meta_names unloaded_meta (VStr "geo") = Raise NoMetabaseData
  /\ getitem meta_names loaded_meta (VStr "dim1") = Raise AttributeError.
Proof. split; vm_compute; reflexivity. Qed.

(** C10 (amended).  On a collection whose metabase is loaded, with its
    dimensions and datasets listed, indexing by a string that is neither
    a dimension nor a dataset returns [None] and raises nothing.
    Indexing by an item that is not a string raises the wrong-type error,
    and so does indexing by any string while no metabase is loaded, with
    the no-metabase error. *)
Theorem getitem_unknown_string
        (names : Dict.t string) (self : Meta) (s : string)
        (dims dsets : list string) :
  dimension names self = Ok dims ->
  dataset names self = Ok dsets ->
  ~ In s dims ->
  ~ In s dsets ->
  getitem names self (VStr s) = Ok ENone
  /\ (forall item, (forall x, item <> VStr x) ->
                   getitem names self item = Raise WrongTypeItem)
  /\ (forall self' x, metabase self' = None ->
                      getitem names self' (VStr x) = Raise NoMetabaseData).
Proof.
  intros Hdims Hdsets Hs1 Hs2. split.
  - unfold getitem. rewrite Hdims. cbn [bind].
    apply str_in_not_In in Hs1. rewrite Hs1.
    rewrite Hdsets. cbn [bind].
    apply str_in_not_In in Hs2. rewrite Hs2. reflexivity.
  - split.
    + intros item Hitem. destruct item as [|z|x]; try reflexivity.
      exfalso. apply (Hitem x). reflexivity.
    + intros self' x Hnone. unfold getitem, dimension. rewrite Hnone.
      reflexivity.
Qed.

Lemma getitem_unknown_string_witness :
  getitem meta_names loaded_meta (VStr "geo") = Ok ENone
  /\ (forall item, (forall x, item <> VStr x) ->
                   getitem meta_names loaded_meta item = Raise WrongTypeItem)
  /\ (forall self' x, metabase self' = None ->
                      getitem meta_names self' (VStr x)
                      = Raise NoMetabaseData).
Proof.
  apply (@getitem_unknown_string meta_names loaded_meta "geo"
           ["dim1"; "dim2"] ["ds1"; "ds2"]).
  - reflexivity.
  - reflexivity.
  - simpl. intros [H|[H|[]]]; discriminate.
  - simpl. intros [H|[H|[]]]; discriminate.
Defined.

(** ** The earlier module *)

(** [Collection.meta_datasets] raises in every state: with a metabase
    because its guard is inverted, without one on the subscript. *)
Lemma legacy_meta_datasets_raises (names : list string)
      (metabase : option DataFrame) :
  (forall df, metabase = Some df ->
              Legacy.meta_datasets names metabase = Raise NoMetabaseData)
  /\ exists e, Legacy.meta_datasets names metabase = Raise e.
Proof.
  split.
  - intros df ->. reflexivity.
  - destruct metabase as [df|]; simpl.
    + eexists. reflexivity.
    + destruct names; eexists; reflexivity.
Qed.

(** [Collection.__get_member] returns for no query: on a loaded table
    and a known member it raises [TypeError]. *)
Lemma legacy_get_member_raises (names : list string) (member : string)
      (metabase : option DataFrame) (kw : kwargs) :
  exists e, Legacy.get_member names member metabase kw = Raise e.
Proof.
  unfold Legacy.get_member. destruct metabase; [|eexists; reflexivity].
  destruct (negb (str_in member names)); eexists; reflexivity.
Qed.

(** * Further properties of the resolver *)

Lemma satisfies_constrained (names : Dict.t string) (cols : list string)
      (kw : kwargs) (r : list string) :
  satisfies cols kw (constrained names kw) r = true <->
  (forall k, In k (Dict.keys kw) -> In k (Dict.keys names) ->
             exists i, index_of k cols = Some i
                       /\ cell_is (cell i r) (kwargs_get k kw) = true).
Proof.
  unfold satisfies, constrained. rewrite forallb_forall. split.
  - intros H k Hk Hn.
    assert (Hin : In k (filter (fun k => str_in k (Dict.keys names))
                               (Dict.keys kw))).
    { apply filter_In. split; [exact Hk|apply str_in_In, Hn]. }
    specialize (H k Hin).
    destruct (index_of k cols) as [i|]; [|discriminate].
    exists i. split; [reflexivity|exact H].
  - intros H k Hin. apply filter_In in Hin. destruct Hin as [Hk Hn].
    apply str_in_In in Hn. destruct (H k Hk Hn) as [i [-> Hc]]. exact Hc.
Qed.

Lemma constrained_nil (names : Dict.t string) (kw : kwargs) :
  constrained names kw = [] <->
  (forall k, In k (Dict.keys kw) -> ~ In k (Dict.keys names)).
Proof.
  unfold constrained. split.
  - intros E k Hk Hn.
    assert (Hin : In k (filter (fun k => str_in k (Dict.keys names))
                               (Dict.keys kw))).
    { apply filter_In. split; [exact Hk|apply str_in_In, Hn]. }
    rewrite E in Hin. destruct Hin.
  - intros H. apply filter_none. intros k Hk. apply str_in_not_In.
    exact (H k Hk).
Qed.

(** A query under any number of constraints.  On a loaded table, for a
    member that is a column and no keyword, and constraints that are
    columns: a result lists without repetition exactly the member values
    of the rows that have, in every constrained column, the value
    required; there is a result when some row meets the constraints, and
    when no keyword names a member; and with a constraint that no row
    meets the query raises [KeyError].  Keywords that name no member play
    no part. *)
Theorem get_member_sound_complete
        (names : Dict.t string) (set_order : list string -> list string)
        (df : DataFrame) (member : string) (kw : kwargs) (im : nat) :
  enumerates set_order ->
  In member (Dict.keys names) ->
  ~ In member (Dict.keys kw) ->
  index_of member (columns df) = Some im ->
  (forall k, In k (Dict.keys kw) -> In k (Dict.keys names) ->
             index_of k (columns df) <> None) ->
  let meets := fun r =>
    forall k, In k (Dict.keys kw) -> In k (Dict.keys names) ->
              exists i, index_of k (columns df) = Some i
                        /\ cell_is (cell i r) (kwargs_get k kw) = true in
  let query := get_member names set_order member (Some df) kw in
  (forall vals,
      query = Ok vals ->
      NoDup vals
      /\ forall x, In x vals <->
                   exists r, In r (rows df) /\ meets r /\ cell im r = x)
  /\ ((exists r, In r (rows df) /\ meets r) -> exists vals, query = Ok vals)
  /\ ((forall k, In k (Dict.keys kw) -> ~ In k (Dict.keys names)) ->
      exists vals, query = Ok vals)
  /\ ((exists k, In k (Dict.keys kw) /\ In k (Dict.keys names)) ->
      (forall r, In r (rows df) -> ~ meets r) ->
      query = Raise KeyError).
Proof.
  intros Henum Hm Hkw Him Hcols meets query.
  assert (Hq : query
               = match constrained names kw with
                 | [] => Ok (unique (map (cell im) (rows df)))
                 | keys =>
                     match filter (satisfies (columns df) kw keys)
                                  (rows df) with
                     | [] => Raise KeyError
                     | sel => Ok (unique (map (cell im) sel))
                     end
                 end).
  { apply get_member_resolve; try assumption.
    intros k Hk. unfold constrained in Hk. apply filter_In in Hk.
    destruct Hk as [Hk Hn]. apply str_in_In in Hn. exact (Hcols k Hk Hn). }
  assert (Hsat : forall r,
             satisfies (columns df) kw (constrained names kw) r = true
             <-> meets r)
    by (intros r; apply satisfies_constrained).
  assert (Hsel : forall r,
             In r (filter (satisfies (columns df) kw (constrained names kw))
                          (rows df))
             <-> In r (rows df) /\ meets r).
  { intros r. rewrite filter_In, Hsat. reflexivity. }
  assert (Hall : constrained names kw = [] -> forall r, meets r).
  { intros E r. apply Hsat. rewrite E. reflexivity. }
  clearbody query. subst query.
  destruct (constrained names kw) as [|k0 ks] eqn:Ec.
  - split.
    { intros vals H. injection H as <-. split; [apply unique_NoDup|].
      intros x. rewrite unique_In, in_map_iff. split.
      - intros [r [Hx Hr]]. exists r.
        split; [exact Hr|split; [apply Hall; reflexivity|exact Hx]].
      - intros [r [Hr [_ Hx]]]. exists r. split; assumption. }
    split; [intros _; eexists; reflexivity|].
    split; [intros _; eexists; reflexivity|].
    intros [k [Hk Hn]] _. exfalso.
    apply (proj1 (constrained_nil names kw) Ec k Hk Hn).
  - destruct (filter (satisfies (columns df) kw (k0 :: ks)) (rows df))
      as [|r0 sel] eqn:Esel.
    + split; [intros vals H; discriminate|].
      split.
      { intros [r Hr]. apply Hsel in Hr. destruct Hr. }
      split.
      { intros Hnone. exfalso.
        apply (proj2 (constrained_nil names kw)) in Hnone. congruence. }
      intros _ _. reflexivity.
    + split.
      { intros vals H.
        assert (vals = unique (map (cell im) (r0 :: sel))) as ->
            by congruence.
        split; [apply unique_NoDup|].
        intros x. rewrite unique_In, in_map_iff. split.
        - intros [r [Hx Hr]]. apply Hsel in Hr. destruct Hr as [Hr Hmeet].
          exists r. split; [exact Hr|split; [exact Hmeet|exact Hx]].
        - intros [r [Hr [Hmeet Hx]]]. exists r.
          split; [exact Hx|apply Hsel; split; assumption]. }
      split; [intros _; eexists; reflexivity|].
      split; [intros _; eexists; reflexivity|].
      intros _ Hnone. exfalso.
      assert (Hr0 : In r0 (r0 :: sel)) by (left; reflexivity).
      apply Hsel in Hr0. destruct Hr0 as [Hr0 Hmeet].
      exact (Hnone r0 Hr0 Hmeet).
Qed.

Lemma get_member_sound_complete_witness :
  let kw := [("dataset", VStr "ds1"); ("lang", VStr "en")] in
  let meets := fun r =>
    forall k, In k (Dict.keys kw) -> In k (Dict.keys scenario_names) ->
              exists i, index_of k (columns scenario_table) = Some i
                        /\ cell_is (cell i r) (kwargs_get k kw) = true in
  let query := get_member scenario_names (fun l => rev l) "label"
                          (Some scenario_table) kw in
  (forall vals,
      query = Ok vals ->
      NoDup vals
      /\ forall x, In x vals <->
                   exists r, In r (rows scenario_table)
                             /\ meets r /\ cell 2 r = x)
  /\ ((exists r, In r (rows scenario_table) /\ meets r) ->
      exists vals, query = Ok vals)
  /\ ((forall k, In k (Dict.keys kw) -> ~ In k (Dict.keys scenario_names)) ->
      exists vals, query = Ok vals)
  /\ ((exists k, In k (Dict.keys kw) /\ In k (Dict.keys scenario_names)) ->
      (forall r, In r (rows scenario_table) -> ~ meets r) ->
      query = Raise KeyError).
Proof.
  apply (@get_member_sound_complete
           scenario_names (fun l => rev l) scenario_table "label"
           [("dataset", VStr "ds1"); ("lang", VStr "en")] 2).
  - intros l x. symmetry. apply in_rev.
  - simpl. right. right. left. reflexivity.
  - simpl. intros [H|[H|[]]]; discriminate.
  - reflexivity.
  - simpl. intros k [<-|[<-|[]]] Hn.
    + discriminate.
    + destruct Hn as [H|[H|[H|[]]]]; discriminate.
Defined.

(** The exceptions of the resolver.  Whatever the table, the keywords
    and the order in which the constraint names are listed, a query that
    raises does so with one of four errors, each in its own situation:
    no table; a member the settings do not know; a member passed as a
    keyword; a failed lookup in the table.  In particular the grouping is
    never asked without keys. *)
Theorem get_member_errors
        (names : Dict.t string) (set_order : list string -> list string)
        (member : string) (mb : option DataFrame) (kw : kwargs) (e : error) :
  get_member names set_order member mb kw = Raise e ->
  (e = MetabaseNotFound /\ mb = None)
  \/ (e = MemberNotRecognised /\ mb <> None
      /\ ~ In member (Dict.keys names))
  \/ (e = MemberAsKeyword /\ mb <> None
      /\ In member (Dict.keys names) /\ In member (Dict.keys kw))
  \/ (e = KeyError /\ mb <> None
      /\ In member (Dict.keys names) /\ ~ In member (Dict.keys kw)).
Proof.
  unfold get_member, members. destruct mb as [df|].
  2:{ intros H. left. split; congruence. }
  destruct (str_in member (Dict.keys names)) eqn:Em; cbn [negb].
  2:{ intros H. right. left. apply str_in_not_In in Em.
      repeat split; congruence. }
  apply str_in_In in Em.
  destruct (Dict.mem member kw) eqn:Ek.
  { intros H. right. right. left. apply mem_keys in Ek.
    repeat split; congruence. }
  assert (Hk : ~ In member (Dict.keys kw)).
  { intros H. apply mem_keys in H. congruence. }
  intros H. right. right. right.
  assert (e = KeyError); [|repeat split; congruence].
  destruct (group_keys names set_order kw) as [|g gs]; cbn [bind] in H.
  - unfold column in H.
    destruct (index_of member (columns df)); cbn [bind] in H; congruence.
  - unfold get_group in H.
    destruct (indices (columns df) (g :: gs)); cbn [bind] in H;
      [|congruence].
    destruct (filter _ (rows df)); cbn [bind] in H; [congruence|].
    unfold column in H. cbn [columns] in H.
    destruct (index_of member (columns df)); cbn [bind] in H; congruence.
Qed.

Lemma get_member_errors_witness :
  (KeyError = MetabaseNotFound /\ Some scenario_table = None)
  \/ (KeyError = MemberNotRecognised /\ Some scenario_table <> None
      /\ ~ In "label" (Dict.keys scenario_names))
  \/ (KeyError = MemberAsKeyword /\ Some scenario_table <> None
      /\ In "label" (Dict.keys scenario_names)
      /\ In "label" (Dict.keys [("dataset", VStr "ds9")]))
  \/ (KeyError = KeyError /\ Some scenario_table <> None
      /\ In "label" (Dict.keys scenario_names)
      /\ ~ In "label" (Dict.keys [("dataset", VStr "ds9")])).
Proof.
  apply (@get_member_errors scenario_names (fun l => l) "label"
           (Some scenario_table) [("dataset", VStr "ds9")] KeyError).
  vm_compute. reflexivity.
Defined.

(** *** The order of the keywords and of the constraint names *)

Lemma get_In {V} (k : string) (v : V) (d : Dict.t V) :
  NoDup (Dict.keys d) -> (Dict.get k d = Some v <-> In (k, v) d).
Proof.
  induction d as [|[k0 v0] d IH]; simpl; intros Hnd.
  - split; [discriminate|intros []].
  - inversion Hnd as [|? ? Hk0 Hnd']; subst.
    destruct (String.eqb_spec k k0) as [->|Hne].
    + split.
      * intros H. injection H as <-. left. reflexivity.
      * intros [H|H]; [congruence|].
        exfalso. apply Hk0. unfold Dict.keys.
        change k0 with (fst (k0, v)). apply in_map. exact H.
    + rewrite (IH Hnd'). split.
      * intros H. right. exact H.
      * intros [H|H]; [congruence|exact H].
Qed.

Lemma get_permutation {V} (k : string) (d d' : Dict.t V) :
  NoDup (Dict.keys d) -> Permutation d d' -> Dict.get k d = Dict.get k d'.
Proof.
  intros Hnd Hp.
  assert (Hnd' : NoDup (Dict.keys d')).
  { unfold Dict.keys. eapply Permutation_NoDup; [|exact Hnd].
    apply Permutation_map. exact Hp. }
  destruct (Dict.get k d) as [v|] eqn:E.
  - symmetry. apply (@get_In _ k v d' Hnd').
    eapply Permutation_in; [exact Hp|].
    apply (@get_In _ k v d Hnd). exact E.
  - destruct (Dict.get k d') as [v|] eqn:E'; [|reflexivity].
    apply (@get_In _ k v d' Hnd') in E'.
    apply (Permutation_in _ (Permutation_sym Hp)) in E'.
    apply (@get_In _ k v d Hnd) in E'. congruence.
Qed.

Lemma indices_none (cols keys : list string) :
  indices cols keys = None <->
  exists k, In k keys /\ index_of k cols = None.
Proof.
  induction keys as [|k keys IH]; simpl.
  - split; [discriminate|intros [k [[] _]]].
  - destruct (index_of k cols) as [i|] eqn:Ei.
    + destruct (indices cols keys) as [l|].
      * split; [discriminate|].
        intros [k' [[<-|Hk'] Hn]]; [congruence|].
        assert (Some l = None) by (apply IH; exists k'; split; assumption).
        discriminate.
      * split; [|reflexivity].
        intros _. destruct (proj1 IH eq_refl) as [k' [Hk' Hn]].
        exists k'. split; [right; exact Hk'|exact Hn].
    + split; [|reflexivity].
      intros _. exists k. split; [left; reflexivity|exact Ei].
Qed.

(** Grouping by two lists of keys that have the same elements, with the
    required values read from the same keywords, selects the same group. *)
Lemma get_group_same_elements (df : DataFrame) (kw : kwargs)
      (ks ks' : list string) :
  (forall k, In k ks <-> In k ks') ->
  get_group df ks (map (fun k => kwargs_get k kw) ks)
  = get_group df ks' (map (fun k => kwargs_get k kw) ks').
Proof.
  intros Hsame. unfold get_group.
  destruct ks as [|k ks0]; destruct ks' as [|k' ks0'].
  - reflexivity.
  - exfalso. apply (proj2 (Hsame k')). left. reflexivity.
  - exfalso. apply (proj1 (Hsame k)). left. reflexivity.
  - set (ks := k :: ks0) in *. set (ks' := k' :: ks0') in *.
    destruct (indices (columns df) ks) as [idxs|] eqn:E;
      destruct (indices (columns df) ks') as [idxs'|] eqn:E'.
    + rewrite (filter_ext _ (satisfies (columns df) kw ks))
        by (intros r; apply (in_group_satisfies _ _ _ _ E)).
      rewrite (filter_ext (in_group idxs' _) (satisfies (columns df) kw ks))
        by (intros r; rewrite (in_group_satisfies _ _ _ _ E');
            apply forallb_same_elements; intros x; symmetry; apply Hsame).
      reflexivity.
    + exfalso. apply indices_none in E'. destruct E' as [x [Hx Hn]].
      apply Hsame in Hx.
      assert (indices (columns df) ks = None)
        by (apply indices_none; exists x; split; assumption).
      congruence.
    + exfalso. apply indices_none in E. destruct E as [x [Hx Hn]].
      apply Hsame in Hx.
      assert (indices (columns df) ks' = None)
        by (apply indices_none; exists x; split; assumption).
      congruence.
    + reflexivity.
Qed.

(** The result of a query depends neither on the order in which the set
    of constraint names is listed nor on the order in which the keywords
    were passed: two listings of sets, and two dictionaries with the
    same items, give the same result or the same exception. *)
Theorem get_member_order_independent
        (names : Dict.t string) (f g : list string -> list string)
        (member : string) (mb : option DataFrame) (kw kw' : kwargs) :
  enumerates f ->
  enumerates g ->
  NoDup (Dict.keys kw) ->
  Permutation kw kw' ->
  get_member names f member mb kw = get_member names g member mb kw'.
Proof.
  intros Hf Hg Hnd Hp. unfold get_member. destruct mb as [df|]; [|reflexivity].
  destruct (negb (str_in member (members names))); [reflexivity|].
  assert (Hkeys : forall k, In k (Dict.keys kw) <-> In k (Dict.keys kw')).
  { intros k. unfold Dict.keys. split; apply Permutation_in.
    - apply Permutation_map. exact Hp.
    - apply Permutation_map. apply Permutation_sym. exact Hp. }
  assert (Hmem : Dict.mem member kw = Dict.mem member kw').
  { destruct (Dict.mem member kw) eqn:E; destruct (Dict.mem member kw') eqn:E';
      try reflexivity.
    - apply mem_keys, Hkeys, mem_keys in E. congruence.
    - apply mem_keys, Hkeys, mem_keys in E'. congruence. }
  rewrite <- Hmem. destruct (Dict.mem member kw); [reflexivity|].
  assert (Hsame : forall k, In k (group_keys names f kw)
                            <-> In k (group_keys names g kw')).
  { intros k. unfold group_keys. rewrite (Hf _ k), (Hg _ k), !filter_In, Hkeys.
    reflexivity. }
  assert (Hvals : map (fun k => kwargs_get k kw') (group_keys names g kw')
                  = map (fun k => kwargs_get k kw) (group_keys names g kw')).
  { apply map_ext. intros k. unfold kwargs_get.
    rewrite (get_permutation k Hnd Hp). reflexivity. }
  f_equal.
  destruct (group_keys names f kw) as [|k ks] eqn:Ef;
    destruct (group_keys names g kw') as [|k' ks'] eqn:Eg.
  - reflexivity.
  - exfalso. apply (proj2 (Hsame k')). left. reflexivity.
  - exfalso. apply (proj1 (Hsame k)). left. reflexivity.
  - rewrite Hvals. apply get_group_same_elements. exact Hsame.
Qed.

Lemma get_member_order_independent_witness :
  get_member scenario_names (fun l => l) "label" (Some scenario_table)
             [("dataset", VStr "ds1"); ("dimension", VStr "dim2")]
  = get_member scenario_names (fun l => rev l) "label" (Some scenario_table)
               [("dimension", VStr "dim2"); ("dataset", VStr "ds1")].
Proof.
  apply (@get_member_order_independent
           scenario_names (fun l => l) (fun l => rev l) "label"
           (Some scenario_table)
           [("dataset", VStr "ds1"); ("dimension", VStr "dim2")]
           [("dimension", VStr "dim2"); ("dataset", VStr "ds1")]).
  - intros l x. reflexivity.
  - intros l x. symmetry. apply in_rev.
  - simpl. constructor.
    + intros [H|[]]. discriminate.
    + constructor; [intros []|constructor].
  - apply perm_swap.
Defined.

(** * The queries of [Meta] *)

Lemma get_member_one (names : Dict.t string)
      (set_order : list string -> list string) (df : DataFrame)
      (member k : string) (v : pyval) (im i : nat) :
  enumerates set_order ->
  In member (Dict.keys names) ->
  In k (Dict.keys names) ->
  member <> k ->
  index_of member (columns df) = Some im ->
  index_of k (columns df) = Some i ->
  get_member names set_order member (Some df) [(k, v)]
  = match filter (fun r => cell_is (cell i r) v) (rows df) with
    | [] => Raise KeyError
    | sel => Ok (unique (map (cell im) sel))
    end.
Proof.
  intros Henum Hm Hk Hne Him Hi.
  assert (Hc : constrained names [(k, v)] = [k]).
  { unfold constrained. cbn [Dict.keys map fst filter].
    apply str_in_In in Hk. rewrite Hk. reflexivity. }
  rewrite (@get_member_resolve names set_order df member _ im Henum Hm).
  - rewrite Hc.
    rewrite (filter_ext _ (fun r => cell_is (cell i r) v)); [reflexivity|].
    intros r. unfold satisfies, kwargs_get. cbn [forallb Dict.get].
    rewrite Hi, String.eqb_refl, andb_true_r. reflexivity.
  - simpl. intros [H|[]]. congruence.
  - exact Him.
  - rewrite Hc. intros k' [<-|[]]. congruence.
Qed.

Lemma filter_cell_is (i : nat) (x : string) (rws : list (list string))
      (r : list string) :
  In r (filter (fun r => cell_is (cell i r) (VStr x)) rws)
  <-> In r rws /\ cell i r = x.
Proof. rewrite filter_In. cbn [cell_is]. rewrite String.eqb_eq. reflexivity. Qed.

(** What a query under one constraint lists. *)
Lemma get_member_one_In (names : Dict.t string)
      (set_order : list string -> list string) (df : DataFrame)
      (member k x y : string) (im i : nat) :
  enumerates set_order ->
  In member (Dict.keys names) ->
  In k (Dict.keys names) ->
  member <> k ->
  index_of member (columns df) = Some im ->
  index_of k (columns df) = Some i ->
  (exists l, get_member names set_order member (Some df) [(k, VStr x)] = Ok l
             /\ In y l)
  <-> exists r, In r (rows df) /\ cell i r = x /\ cell im r = y.
Proof.
  intros Henum Hm Hk Hne Him Hi.
  rewrite (@get_member_one names set_order df member k (VStr x) im i
             Henum Hm Hk Hne Him Hi).
  pose proof (filter_cell_is i x (rows df)) as Hsel.
  destruct (filter (fun r => cell_is (cell i r) (VStr x)) (rows df))
    as [|r0 sel].
  - split.
    + intros [l [H _]]. discriminate.
    + intros [r [Hr [Hx _]]]. exfalso. apply (proj2 (Hsel r)).
      split; assumption.
  - split.
    + intros [l [H Hy]].
      assert (l = unique (map (cell im) (r0 :: sel))) as -> by congruence.
      apply unique_In, in_map_iff in Hy. destruct Hy as [r [Hy Hr]].
      apply Hsel in Hr. destruct Hr as [Hr Hx].
      exists r. repeat split; assumption.
    + intros [r [Hr [Hx Hy]]]. eexists. split; [reflexivity|].
      apply unique_In, in_map_iff. exists r. split; [exact Hy|].
      apply Hsel. split; assumption.
Qed.

(** The two listings are converse to each other.  On a loaded table with
    the columns [data] and [dic]: a dimension is among the dimensions
    listed for a dataset exactly when the dataset is among the datasets
    listed for the dimension, and exactly when some row of the table
    carries the pair. *)
Theorem datasets_dimensions_converse
        (names : Dict.t string) (set_order : list string -> list string)
        (self : Meta) (df : DataFrame) (ds d : string) (id ic : nat) :
  enumerates set_order ->
  metabase self = Some df ->
  In "data" (Dict.keys names) ->
  In "dic" (Dict.keys names) ->
  index_of "data" (columns df) = Some id ->
  index_of "dic" (columns df) = Some ic ->
  let uses := exists r, In r (rows df) /\ cell id r = ds /\ cell ic r = d in
  ((exists l, getAllDimensions names set_order self (VStr ds) = Ok l
              /\ In d l) <-> uses)
  /\ ((exists l, getAllDatasets names set_order self (VStr d) = Ok l
                 /\ In ds l) <-> uses)
  /\ ((exists l, getDataset names set_order self (VStr ds) = Ok l
                 /\ In d l) <-> uses).
Proof.
  intros Henum Hmb Hdata Hdic Hid Hic uses.
  unfold getAllDimensions, getAllDatasets, getDataset, resolve.
  rewrite Hmb. cbn [is_none].
  assert (H1 : (exists l,
                   get_member names set_order "dic" (Some df)
                              [("data", VStr ds)] = Ok l /\ In d l)
               <-> uses).
  { apply (@get_member_one_In names set_order df "dic" "data" ds d ic id
             Henum Hdic Hdata); [discriminate|exact Hic|exact Hid]. }
  split; [exact H1|]. split; [|exact H1].
  rewrite (@get_member_one_In names set_order df "data" "dic" d ds id ic
             Henum Hdata Hdic); [|discriminate|exact Hid|exact Hic].
  unfold uses. split; intros [r [Hr [Ha Hb]]]; exists r; repeat split;
    assumption.
Qed.

Lemma datasets_dimensions_converse_witness :
  let uses := exists r, In r scenario_rows
                        /\ cell 0 r = "ds2" /\ cell 1 r = "dim1" in
  ((exists l, getAllDimensions meta_names (fun l => rev l) loaded_meta
                               (VStr "ds2") = Ok l
              /\ In "dim1" l) <-> uses)
  /\ ((exists l, getAllDatasets meta_names (fun l => rev l) loaded_meta
                                (VStr "dim1") = Ok l
                 /\ In "ds2" l) <-> uses)
  /\ ((exists l, getDataset meta_names (fun l => rev l) loaded_meta
                            (VStr "ds2") = Ok l
                 /\ In "dim1" l) <-> uses).
Proof.
  apply (@datasets_dimensions_converse
           meta_names (fun l => rev l) loaded_meta
           (mkDataFrame ["data"; "dic"; "label"] scenario_rows)
           "ds2" "dim1" 0 1).
  - intros l x. symmetry. apply in_rev.
  - reflexivity.
  - simpl. left. reflexivity.
  - simpl. right. left. reflexivity.
  - reflexivity.
  - reflexivity.
Defined.

(** [checkDimensionInDataset] has three outcomes on a loaded table with
    the columns [data] and [dic]: [True] when some row carries the pair,
    [False] when the dataset occurs in the table but never with the
    dimension, and [KeyError], not [False], when the dataset occurs in
    no row. *)
Theorem checkDimensionInDataset_outcomes
        (names : Dict.t string) (set_order : list string -> list string)
        (self : Meta) (df : DataFrame) (ds d : string) (id ic : nat) :
  enumerates set_order ->
  metabase self = Some df ->
  In "data" (Dict.keys names) ->
  In "dic" (Dict.keys names) ->
  index_of "data" (columns df) = Some id ->
  index_of "dic" (columns df) = Some ic ->
  let check := checkDimensionInDataset names set_order self
                                       (VStr d) (VStr ds) in
  let present := exists r, In r (rows df) /\ cell id r = ds in
  let uses := exists r, In r (rows df) /\ cell id r = ds /\ cell ic r = d in
  (check = Ok true <-> uses)
  /\ (check = Ok false <-> present /\ ~ uses)
  /\ (check = Raise KeyError <-> ~ present).
Proof.
  intros Henum Hmb Hdata Hdic Hid Hic check present uses.
  assert (Hcheck : check
                   = match filter (fun r => cell_is (cell id r) (VStr ds))
                                  (rows df) with
                     | [] => Raise KeyError
                     | sel => Ok (str_in d (unique (map (cell ic) sel)))
                     end).
  { unfold check, checkDimensionInDataset, getAllDimensions, resolve.
    rewrite Hmb.
    rewrite (@get_member_one names set_order df "dic" "data" (VStr ds)
               ic id Henum Hdic Hdata); [|discriminate|exact Hic|exact Hid].
    destruct (filter _ (rows df)); reflexivity. }
  pose proof (filter_cell_is id ds (rows df)) as Hsel.
  rewrite Hcheck. clear Hcheck.
  destruct (filter (fun r => cell_is (cell id r) (VStr ds)) (rows df))
    as [|r0 sel].
  - assert (Hnp : ~ present).
    { intros [r Hr]. apply (proj2 (Hsel r)). exact Hr. }
    split; [|split].
    + split; [discriminate|].
      intros [r [Hr [Ha _]]]. exfalso. apply Hnp. exists r. split; assumption.
    + split; [discriminate|]. intros [Hp _]. contradiction.
    + split; [intros _; exact Hnp|reflexivity].
  - assert (Hp : present).
    { exists r0. apply Hsel. left. reflexivity. }
    assert (Huses : str_in d (unique (map (cell ic) (r0 :: sel))) = true
                    <-> uses).
    { rewrite str_in_In, unique_In, in_map_iff. split.
      - intros [r [Hd Hr]]. apply Hsel in Hr. destruct Hr as [Hr Ha].
        exists r. repeat split; assumption.
      - intros [r [Hr [Ha Hd]]]. exists r. split; [exact Hd|].
        apply Hsel. split; assumption. }
    destruct (str_in d (unique (map (cell ic) (r0 :: sel)))) eqn:E.
    + split; [|split].
      * split; [intros _; apply Huses; reflexivity|reflexivity].
      * split; [discriminate|].
        intros [_ Hn]. exfalso. apply Hn, Huses. reflexivity.
      * split; [discriminate|]. intros Hn. contradiction.
    + assert (Hnu : ~ uses).
      { intros Hu. apply Huses in Hu. discriminate. }
      split; [|split].
      * split; [discriminate|]. intros Hu. contradiction.
      * split; [intros _; split; assumption|reflexivity].
      * split; [discriminate|]. intros Hn. contradiction.
Qed.

Lemma checkDimensionInDataset_outcomes_witness :
  let check := checkDimensionInDataset meta_names (fun l => l) loaded_meta
                                       (VStr "dim2") (VStr "ds2") in
  let present := exists r, In r scenario_rows /\ cell 0 r = "ds2" in
  let uses := exists r, In r scenario_rows
                        /\ cell 0 r = "ds2" /\ cell 1 r = "dim2" in
  (check = Ok true <-> uses)
  /\ (check = Ok false <-> present /\ ~ uses)
  /\ (check = Raise KeyError <-> ~ present).
Proof.
  apply (@checkDimensionInDataset_outcomes
           meta_names (fun l => l) loaded_meta
           (mkDataFrame ["data"; "dic"; "label"] scenario_rows)
           "ds2" "dim2" 0 1).
  - intros l x. reflexivity.
  - reflexivity.
  - simpl. left. reflexivity.
  - simpl. right. left. reflexivity.
  - reflexivity.
  - reflexivity.
Defined.

(** *** The two membership checks for datasets *)

Lemma unique_nil (l : list string) : unique l = [] <-> l = [].
Proof.
  destruct l; simpl; split; try reflexivity; discriminate.
Qed.

Lemma get_Some_keys {V} (k : string) (v : V) (d : Dict.t V) :
  Dict.get k d = Some v -> In k (Dict.keys d).
Proof.
  induction d as [|[k0 v0] d IH]; simpl; [discriminate|].
  destruct (String.eqb_spec k k0) as [->|_];
    [left; reflexivity|right; apply IH; assumption].
Qed.

(** [check_dataset], which reads the property [dataset], and
    [checkDataset], which asks the resolver, look the dataset up in two
    columns: the first in the column named by the value that the
    settings give for [data], the second in the column named [data]
    itself.  On a loaded table that has both columns and at least one
    row, each returns [True] exactly when some row carries the dataset in
    the column it reads, so that the two agree when both names are names
    of one column; on a table without rows the first raises that there
    are no members to compare to, and the second returns [False].
    Without a table both raise, each with the error of its own guard. *)
Theorem check_dataset_and_checkDataset
        (names : Dict.t string) (set_order : list string -> list string)
        (self : Meta) (df : DataFrame) (ds c : string) (iv ik : nat) :
  enumerates set_order ->
  metabase self = Some df ->
  Dict.get "data" names = Some c ->
  index_of c (columns df) = Some iv ->
  index_of "data" (columns df) = Some ik ->
  let by_value := exists r, In r (rows df) /\ cell iv r = ds in
  let by_key := exists r, In r (rows df) /\ cell ik r = ds in
  (rows df <> [] ->
   exists b b',
     check_dataset names self (VStr ds) = Checked b
     /\ checkDataset names set_order self (VStr ds) = Ok b'
     /\ (b = true <-> by_value)
     /\ (b' = true <-> by_key)
     /\ (iv = ik -> b = b'))
  /\ (rows df = [] ->
      check_dataset names self (VStr ds) = NoMembers
      /\ checkDataset names set_order self (VStr ds) = Ok false)
  /\ (forall self',
         metabase self' = None ->
         check_dataset names self' (VStr ds) = PropertyRaised NoMetabaseData
         /\ checkDataset names set_order self' (VStr ds)
            = Raise MetabaseNotFound).
Proof.
  intros Henum Hmb Hname Hiv Hik by_value by_key.
  assert (Hin : In "data" (Dict.keys names))
    by (eapply get_Some_keys; exact Hname).
  assert (Hprop : dataset names self = Ok (unique (map (cell iv) (rows df)))).
  { unfold dataset. rewrite Hmb. unfold getitem_dict. rewrite Hname.
    cbn [bind]. unfold column. rewrite Hiv. reflexivity. }
  assert (Hall : getAllDatasets names set_order self VNone
                 = Ok (unique (map (cell ik) (rows df)))).
  { unfold getAllDatasets, resolve. cbn [is_none]. rewrite Hmb.
    rewrite (@get_member_resolve names set_order df "data" [] ik Henum Hin).
    - reflexivity.
    - intros [].
    - exact Hik.
    - intros k []. }
  assert (Hin_iff : forall i,
             str_in ds (unique (map (cell i) (rows df))) = true
             <-> exists r, In r (rows df) /\ cell i r = ds).
  { intros i. rewrite str_in_In, unique_In, in_map_iff.
    split; intros [r [H1 H2]]; exists r; split; assumption. }
  unfold check_dataset, checkDataset, check_with.
  split; [|split].
  - intros Hrows. rewrite Hprop, Hall. cbn [bind].
    exists (str_in ds (unique (map (cell iv) (rows df)))),
           (str_in ds (unique (map (cell ik) (rows df)))).
    split; [|split; [reflexivity|split; [apply Hin_iff|split;
                                          [apply Hin_iff|]]]].
    + unfold check_member.
      destruct (unique (map (cell iv) (rows df))) as [|x l] eqn:E;
        [|reflexivity].
      exfalso. apply (proj1 (unique_nil _)) in E. apply map_eq_nil in E.
      contradiction.
    + intros ->. reflexivity.
  - intros Hrows. rewrite Hprop, Hall, Hrows. split; reflexivity.
  - intros self' Hnone. unfold dataset, getAllDatasets, resolve.
    rewrite Hnone. split; reflexivity.
Qed.

Lemma check_dataset_and_checkDataset_witness :
  let df := mkDataFrame ["data"; "dic"; "label"; "dataset"]
                        [["ds1"; "dim1"; "lbl1"; "ds9"]] in
  let self := mkMeta "example.org" (VInt 1) "en" (Some df)
                     None None None in
  let by_value := exists r, In r (rows df) /\ cell 3 r = "ds1" in
  let by_key := exists r, In r (rows df) /\ cell 0 r = "ds1" in
  (rows df <> [] ->
   exists b b',
     check_dataset [("data", "dataset")] self (VStr "ds1") = Checked b
     /\ checkDataset [("data", "dataset")] (fun l => l) self (VStr "ds1")
        = Ok b'
     /\ (b = true <-> by_value)
     /\ (b' = true <-> by_key)
     /\ (3 = 0 -> b = b'))
  /\ (rows df = [] ->
      check_dataset [("data", "dataset")] self (VStr "ds1") = NoMembers
      /\ checkDataset [("data", "dataset")] (fun l => l) self (VStr "ds1")
         = Ok false)
  /\ (forall self',
         metabase self' = None ->
         check_dataset [("data", "dataset")] self' (VStr "ds1")
         = PropertyRaised NoMetabaseData
         /\ checkDataset [("data", "dataset")] (fun l => l) self' (VStr "ds1")
            = Raise MetabaseNotFound).
Proof.
  apply (@check_dataset_and_checkDataset
           [("data", "dataset")] (fun l => l)
           (mkMeta "example.org" (VInt 1) "en"
                   (Some (mkDataFrame ["data"; "dic"; "label"; "dataset"]
                                      [["ds1"; "dim1"; "lbl1"; "ds9"]]))
                   None None None)
           (mkDataFrame ["data"; "dic"; "label"; "dataset"]
                        [["ds1"; "dim1"; "lbl1"; "ds9"]])
           "ds1" "dataset" 3 0).
  - intros l x. reflexivity.
  - reflexivity.
  - reflexivity.
  - reflexivity.
  - reflexivity.
Defined.

(** *** Indexing *)

Lemma get_setitem_same {V} (k : string) (v : V) (d : Dict.t V) :
  Dict.get k (setitem_dict k v d) = Some v.
Proof.
  induction d as [|[k0 v0] d IH]; simpl.
  - rewrite String.eqb_refl. reflexivity.
  - destruct (String.eqb k k0) eqn:E; simpl; rewrite E; [reflexivity|exact IH].
Qed.

Lemma get_setitem_other {V} (k k' : string) (v : V) (d : Dict.t V) :
  k' <> k -> Dict.get k' (setitem_dict k v d) = Dict.get k' d.
Proof.
  intros Hne. induction d as [|[k0 v0] d IH]; simpl.
  - apply String.eqb_neq in Hne. rewrite Hne. reflexivity.
  - destruct (String.eqb_spec k k0) as [->|Hk]; simpl.
    + apply String.eqb_neq in Hne. rewrite Hne. reflexivity.
    + rewrite IH. reflexivity.
Qed.

(** Assignment and lookup by index.  When the assignment of a value to
    a string item returns, either the item is a dimension or a dataset
    of the metabase, and the lookup of the item then returns the value
    assigned; or it is neither, the collection is left as it was and the
    lookup returns [None].  The lookup of every other string item is as
    before the assignment. *)
Theorem setitem_then_getitem
        (names : Dict.t string) (self self' : Meta) (s : string)
        (value : entry) :
  setitem names self (VStr s) value = Ok self' ->
  ((contains names self (VStr s) = Ok true
    /\ getitem names self' (VStr s) = Ok value)
   \/ (contains names self (VStr s) = Ok false
       /\ self' = self
       /\ getitem names self' (VStr s) = Ok ENone))
  /\ (forall s', s' <> s ->
                 getitem names self' (VStr s') = getitem names self (VStr s')).
Proof.
  unfold setitem, contains, getitem.
  assert (Hd : forall st, dimension names (with_dimension_store self st)
                          = dimension names self) by reflexivity.
  assert (Hd' : forall st, dimension names (with_dataset_store self st)
                           = dimension names self) by reflexivity.
  assert (Hs : forall st, dataset names (with_dimension_store self st)
                          = dataset names self) by reflexivity.
  assert (Hs' : forall st, dataset names (with_dataset_store self st)
                           = dataset names self) by reflexivity.
  destruct (dimension names self) as [dims|e] eqn:Edims; cbn [bind];
    [|discriminate].
  destruct (str_in s dims) eqn:Es.
  - destruct (dimension_store self) as [store|] eqn:Est; cbn [bind attribute];
      [|discriminate].
    intros H. injection H as <-. split.
    + left. split; [reflexivity|].
      rewrite ?Hd, ?Hd', ?Hs, ?Hs', ?Edims, ?Edsets. cbn [bind]. rewrite Es.
      cbn [with_dimension_store dimension_store attribute bind].
      unfold getitem_dict. rewrite get_setitem_same. reflexivity.
    + intros s' Hne. rewrite ?Hd, ?Hd', ?Hs, ?Hs', ?Edims, ?Edsets. cbn [bind].
      cbn [with_dimension_store dimension_store dataset_store].
      rewrite ?Est. cbn [attribute bind]. unfold getitem_dict.
      rewrite (get_setitem_other _ _ Hne). reflexivity.
  - destruct (dataset names self) as [dsets|e] eqn:Edsets; cbn [bind];
      [|discriminate].
    destruct (str_in s dsets) eqn:Es2.
    + destruct (dataset_store self) as [store|] eqn:Est;
        cbn [bind attribute]; [|discriminate].
      intros H. injection H as <-. split.
      * left. split; [reflexivity|].
        rewrite ?Hd, ?Hd', ?Hs, ?Hs', ?Edims, ?Edsets. cbn [bind]. rewrite Es, Es2.
        cbn [with_dataset_store dataset_store attribute bind].
        unfold getitem_dict. rewrite get_setitem_same. reflexivity.
      * intros s' Hne. rewrite ?Hd, ?Hd', ?Hs, ?Hs', ?Edims, ?Edsets. cbn [bind].
        cbn [with_dataset_store dimension_store dataset_store].
        rewrite ?Est. cbn [attribute bind]. unfold getitem_dict.
        rewrite (get_setitem_other _ _ Hne). reflexivity.
    + intros H. injection H as <-. split.
      * right. split; [reflexivity|]. split; [reflexivity|].
        rewrite ?Hd, ?Hd', ?Hs, ?Hs', ?Edims, ?Edsets. cbn [bind]. rewrite Es, Es2. reflexivity.
      * intros s' _. rewrite ?Edims, ?Edsets. reflexivity.
Qed.

Lemma setitem_then_getitem_witness :
  let self' := with_dimension_store stored_meta
                 [("dim1", EList ["lbl1"; "lbl3"])] in
  ((contains meta_names stored_meta (VStr "dim1") = Ok true
    /\ getitem meta_names self' (VStr "dim1") = Ok (EList ["lbl1"; "lbl3"]))
   \/ (contains meta_names stored_meta (VStr "dim1") = Ok false
       /\ self' = stored_meta
       /\ getitem meta_names self' (VStr "dim1") = Ok ENone))
  /\ (forall s', s' <> "dim1" ->
                 getitem meta_names self' (VStr s')
                 = getitem meta_names stored_meta (VStr s')).
Proof.
  apply (@setitem_then_getitem meta_names stored_meta
           (with_dimension_store stored_meta
              [("dim1", EList ["lbl1"; "lbl3"])])
           "dim1" (EList ["lbl1"; "lbl3"])).
  vm_compute. reflexivity.
Defined.

(** Membership and lookup by index.  An item that the collection does
    not contain is looked up as [None]; whatever exception the
    membership test raises, the lookup raises too; and for an item the
    collection contains, a lookup that returns gives a value held by one
    of the two stores under that item: when nothing was stored under a
    dimension or dataset the lookup does not return. *)
Theorem contains_and_getitem
        (names : Dict.t string) (self : Meta) (item : pyval) :
  (contains names self item = Ok false ->
   getitem names self item = Ok ENone)
  /\ (forall e, contains names self item = Raise e ->
                getitem names self item = Raise e)
  /\ (forall v s,
         contains names self item = Ok true ->
         item = VStr s ->
         getitem names self item = Ok v ->
         (exists st, dimension_store self = Some st
                     /\ Dict.get s st = Some v)
         \/ (exists st, dataset_store self = Some st
                        /\ Dict.get s st = Some v)).
Proof.
  unfold contains, getitem.
  destruct item as [| z | s]; try (repeat split; intros; congruence).
  destruct (dimension names self) as [dims|e0]; cbn [bind].
  2:{ repeat split; intros; congruence. }
  destruct (str_in s dims).
  - split; [discriminate|]. split; [discriminate|].
    intros v s0 _ Hs. injection Hs as <-.
    destruct (dimension_store self) as [st|]; cbn [attribute bind];
      [|discriminate].
    unfold getitem_dict. destruct (Dict.get s st) as [v'|] eqn:E;
      [|discriminate].
    intros H. injection H as <-. left. exists st. split; [reflexivity|exact E].
  - destruct (dataset names self) as [dsets|e1]; cbn [bind].
    2:{ repeat split; intros; congruence. }
    destruct (str_in s dsets).
    + split; [discriminate|]. split; [discriminate|].
      intros v s0 _ Hs. injection Hs as <-.
      destruct (dataset_store self) as [st|]; cbn [attribute bind];
        [|discriminate].
      unfold getitem_dict. destruct (Dict.get s st) as [v'|] eqn:E;
        [|discriminate].
      intros H. injection H as <-. right. exists st.
      split; [reflexivity|exact E].
    + split; [reflexivity|]. split; [discriminate|].
      intros v s0 H. discriminate.
Qed.

(** * Further properties of the URL builder *)

(** The language setter and the URL builder refuse the same languages:
    for a [lang] other than [None] among the parameters, the builder
    raises the language-not-supported error exactly when the setter does
    not store the value, and the setter stores nothing but a supported
    language.  This holds whatever [Session] is bound to. *)
Theorem set_lang_agrees_with_update_url
        (S : option (string -> kwargs -> string))
        (LANGS : list string) (DEF_SORT : Z) (domain : string)
        (kw : kwargs) (v : pyval) :
  kwargs_get "lang" kw = v ->
  v <> VNone ->
  (update_url S LANGS DEF_SORT domain kw = Raise LanguageNotSupported
   <-> forall l, set_lang LANGS v <> LangStored l)
  /\ (forall l, set_lang LANGS v = LangStored l -> v = VStr l /\ In l LANGS).
Proof.
  intros Hv Hnone.
  assert (Hne : kw <> []).
  { intros ->. apply Hnone. rewrite <- Hv. reflexivity. }
  rewrite (update_url_unfold S LANGS DEF_SORT domain Hne). cbv zeta.
  rewrite Hv. unfold set_lang.
  destruct v as [| z | s]; [contradiction| |]; cbn [is_none negb lang_supported andb].
  - split; [|intros l H; discriminate].
    split; [intros _ l; discriminate|reflexivity].
  - destruct (str_in s LANGS) eqn:Es; cbn [negb andb].
    + split.
      * split.
        -- destruct S; discriminate.
        -- intros H. exfalso. apply (H s). reflexivity.
      * intros l H. injection H as <-. apply str_in_In in Es.
        split; [reflexivity|exact Es].
    + split; [|intros l H; discriminate].
      split; [intros _ l; discriminate|reflexivity].
Qed.

Lemma set_lang_agrees_with_update_url_witness :
  (update_url module_Session ["en"; "fr"; "de"] 1 "example.org"
              [("dir", VStr "dic"); ("lang", VStr "it")]
   = Raise LanguageNotSupported
   <-> forall l, set_lang ["en"; "fr"; "de"] (VStr "it") <> LangStored l)
  /\ (forall l, set_lang ["en"; "fr"; "de"] (VStr "it") = LangStored l ->
                VStr "it" = VStr l /\ In l ["en"; "fr"; "de"]).
Proof.
  apply (@set_lang_agrees_with_update_url
           module_Session ["en"; "fr"; "de"] 1 "example.org"
           [("dir", VStr "dic"); ("lang", VStr "it")] (VStr "it")).
  - reflexivity.
  - discriminate.
Defined.

(** * Further properties of loading and of the lookups *)

(** With a compression named in the settings that is none of [gz], [bz2]
    and [zip], the empty one of an uncompressed file included,
    [readMetabase] never returns, whatever the instance provides and
    whatever the session would read; on an instance that provides
    [update_url] and [sort] and once the URL is built, what it raises is
    the [KeyError] of the lookup of the compression. *)
Theorem readMetabase_needs_known_compression
        (BASE_FILE BASE_EXT BASE_ZIP : string) (lookup : Lookup)
        (session : Session) (self : Meta) :
  ~ In BASE_ZIP ["gz"; "bz2"; "zip"] ->
  (forall r,
      readMetabase BASE_FILE BASE_EXT BASE_ZIP lookup session self <> Ok r)
  /\ (forall u s file_url_,
         attr_update_url lookup = Some u ->
         attr_sort lookup = Some s ->
         file_url lookup self
                  (if negb (String.eqb BASE_ZIP "")
                   then (BASE_FILE ++ "." ++ BASE_EXT) ++ "." ++ BASE_ZIP
                   else BASE_FILE ++ "." ++ BASE_EXT) = Ok file_url_ ->
         readMetabase BASE_FILE BASE_EXT BASE_ZIP lookup session self
         = Raise KeyError).
Proof.
  intros Hzip.
  assert (E : getitem_dict BASE_ZIP dcomp = Raise KeyError).
  { unfold getitem_dict, dcomp. cbn [Dict.get].
    destruct (String.eqb_spec BASE_ZIP "gz") as [->|_];
      [exfalso; apply Hzip; simpl; tauto|].
    destruct (String.eqb_spec BASE_ZIP "bz2") as [->|_];
      [exfalso; apply Hzip; simpl; tauto|].
    destruct (String.eqb_spec BASE_ZIP "zip") as [->|_];
      [exfalso; apply Hzip; simpl; tauto|].
    reflexivity. }
  unfold readMetabase. cbv zeta. split.
  - intros r. destruct (file_url lookup self _); cbn [bind]; [|discriminate].
    rewrite E. discriminate.
  - intros u s file_url_ _ _ ->. cbn [bind]. rewrite E. reflexivity.
Qed.

Lemma readMetabase_needs_known_compression_witness :
  (forall r,
      readMetabase "metabase" "txt" "" providing_lookup serving_session
                   unloaded_meta <> Ok r)
  /\ (forall u s file_url_,
         attr_update_url providing_lookup = Some u ->
         attr_sort providing_lookup = Some s ->
         file_url providing_lookup unloaded_meta
                  (if negb (String.eqb "" "")
                   then ("metabase" ++ "." ++ "txt") ++ "." ++ ""
                   else "metabase" ++ "." ++ "txt") = Ok file_url_ ->
         readMetabase "metabase" "txt" "" providing_lookup serving_session
                      unloaded_meta
         = Raise KeyError).
Proof.
  apply (@readMetabase_needs_known_compression
           "metabase" "txt" "" providing_lookup serving_session
           unloaded_meta).
  simpl. intros [H|[H|[H|[]]]]; discriminate.
Defined.

(** On an instance as the class makes it no load returns and no read is
    attempted.  [readMetabase] raises [AttributeError], whatever the
    settings and the session.  [readToc] checks the extension first and
    the language next, each with its own error, and with both accepted
    raises [AttributeError] as well. *)
Theorem loaders_raise_on_plain_instance
        (LANGS : list string)
        (BASE_FILE BASE_EXT BASE_ZIP TOC_FILE TOC_ZIP DIC_ZIP : string)
        (TOC_EXTS : list string)
        (session : Session) (self : Meta) (kw : kwargs) :
  let load_toc :=
    readToc LANGS TOC_FILE TOC_ZIP DIC_ZIP TOC_EXTS Meta_lookup session self
            kw in
  let ext_accepted :=
    (exists e, Dict.get "ext" kw = Some e /\ val_in e TOC_EXTS = true)
    \/ (Dict.get "ext" kw = None /\ TOC_EXTS <> []) in
  let lang_accepted_ :=
    (exists l, Dict.get "lang" kw = Some l /\ val_in l LANGS = true)
    \/ Dict.get "lang" kw = None in
  readMetabase BASE_FILE BASE_EXT BASE_ZIP Meta_lookup session self
  = Raise AttributeError
  /\ (forall r, load_toc <> Ok r)
  /\ ((exists e, Dict.get "ext" kw = Some e /\ val_in e TOC_EXTS = false) ->
      load_toc = Raise TocExtNotRecognised)
  /\ (ext_accepted ->
      (exists l, Dict.get "lang" kw = Some l /\ val_in l LANGS = false) ->
      load_toc = Raise LangNotRecognised)
  /\ (ext_accepted -> lang_accepted_ -> load_toc = Raise AttributeError).
Proof.
  intros load_toc ext_accepted lang_accepted_.
  split; [reflexivity|].
  unfold load_toc, readToc. split; [|split; [|split]].
  - intros r.
    destruct (match Dict.get "ext" kw with
              | Some e => _
              | None => _
              end) as [ext|]; cbn [bind]; [|discriminate].
    destruct (match Dict.get "lang" kw with
              | Some l => _
              | None => _
              end) as [lang_|]; cbn [bind]; [|discriminate].
    intros H. change (Raise AttributeError = Ok r) in H. discriminate H.
  - intros [e [-> He]]. rewrite He. reflexivity.
  - intros Hext [l [Hl Hbad]].
    destruct Hext as [[e [-> He]]|[-> Hne]].
    + rewrite He, Hl, Hbad. reflexivity.
    + destruct TOC_EXTS; [contradiction|]. rewrite Hl, Hbad. reflexivity.
  - intros Hext Hlang.
    assert (He : exists ext,
               match Dict.get "ext" kw with
               | Some e =>
                   if negb (val_in e TOC_EXTS)
                   then Raise TocExtNotRecognised else Ok e
               | None =>
                   match TOC_EXTS with
                   | [] => Raise IndexError
                   | e :: _ => Ok (VStr e)
                   end
               end = Ok ext).
    { destruct Hext as [[e [-> He]]|[-> Hne]].
      - rewrite He. eexists. reflexivity.
      - destruct TOC_EXTS; [contradiction|]. eexists. reflexivity. }
    assert (Hl : exists lang_,
               match Dict.get "lang" kw with
               | Some l =>
                   if negb (val_in l LANGS)
                   then Raise LangNotRecognised else Ok l
               | None => Ok (VStr (lang self))
               end = Ok lang_).
    { destruct Hlang as [[l [-> Hl]]| ->].
      - rewrite Hl. eexists. reflexivity.
      - eexists. reflexivity. }
    destruct He as [ext ->]. destruct Hl as [lang_ ->]. cbn [bind].
    reflexivity.
Qed.



(** *** The lookups in the table of contents *)

Lemma getTitle_as_lookup (toc_ : option DataFrame) (ds : string) :
  getTitle toc_ ds
  = (t <- (res <- get_content ds toc_ ;;
           series <- column res "title" ;; first_cell series) ;;
     Ok (rstrip (lstrip t))).
Proof.
  unfold getTitle. destruct (get_content ds toc_) as [res|]; cbn [bind];
    [|reflexivity].
  destruct (column res "title"); reflexivity.
Qed.

Lemma getPeriod_as_lookups (toc_ : option DataFrame) (ds : string) :
  getPeriod toc_ ds
  = (start <- (res <- get_content ds toc_ ;;
               series <- column res "data start" ;; first_cell series) ;;
     end_ <- (res <- get_content ds toc_ ;;
              series <- column res "data end" ;; first_cell series) ;;
     Ok [start; end_]).
Proof.
  unfold getPeriod. destruct (get_content ds toc_) as [res|]; cbn [bind];
    [|reflexivity].
  destruct (column res "data start") as [starts|]; cbn [bind];
    [|reflexivity].
  destruct (first_cell starts); cbn [bind]; [|reflexivity].
  destruct (column res "data end"); reflexivity.
Qed.

(** The lookups in the table of contents never fail on an index: a
    selection that [__get_content] returns has at least one row, each of
    its rows is a row of the table that carries the code asked for, and
    neither [getTitle] nor [getPeriod] raises [IndexError]. *)
Theorem toc_lookup_selection_not_empty
        (toc_ : option DataFrame) (ds : string) :
  (forall res,
      get_content ds toc_ = Ok res ->
      rows res <> []
      /\ exists df ic,
          toc_ = Some df
          /\ columns res = columns df
          /\ index_of "code" (columns df) = Some ic
          /\ forall r, In r (rows res) <-> In r (rows df) /\ cell ic r = ds)
  /\ getTitle toc_ ds <> Raise IndexError
  /\ getPeriod toc_ ds <> Raise IndexError.
Proof.
  assert (Hsel : forall res,
             get_content ds toc_ = Ok res ->
             rows res <> []
             /\ exists df ic,
                 toc_ = Some df
                 /\ columns res = columns df
                 /\ index_of "code" (columns df) = Some ic
                 /\ forall r, In r (rows res)
                              <-> In r (rows df) /\ cell ic r = ds).
  { intros res. unfold get_content. destruct toc_ as [df|]; [|discriminate].
    destruct (index_of "code" (columns df)) as [ic|] eqn:Eic; [|discriminate].
    destruct (str_in ds (map (cell ic) (rows df))) eqn:Ein; cbn [negb];
      [|discriminate].
    intros H. injection H as <-. unfold select_eq. cbn [rows columns].
    assert (Hrows : forall r,
               In r (filter (fun r => String.eqb (cell ic r) ds) (rows df))
               <-> In r (rows df) /\ cell ic r = ds).
    { intros r. rewrite filter_In, String.eqb_eq. reflexivity. }
    split.
    - apply str_in_map_cell in Ein. destruct Ein as [r Hr].
      apply Hrows in Hr. intros E. rewrite E in Hr. destruct Hr.
    - exists df, ic. split; [reflexivity|]. split; [reflexivity|].
      split; [exact Eic|exact Hrows]. }
  split; [exact Hsel|].
  assert (Hcell : forall res name,
             get_content ds toc_ = Ok res ->
             (series <- column res name ;; first_cell series)
             <> Raise IndexError).
  { intros res name Hres. destruct (Hsel res Hres) as [Hne _].
    unfold column. destruct (index_of name (columns res)); cbn [bind];
      [|discriminate].
    destruct (rows res); [contradiction|]. discriminate. }
  rewrite getTitle_as_lookup, getPeriod_as_lookups.
  destruct (get_content ds toc_) as [res|e] eqn:Eres; cbn [bind].
  - pose proof (Hcell res "title" eq_refl) as Ht.
    pose proof (Hcell res "data start" eq_refl) as Hs.
    pose proof (Hcell res "data end" eq_refl) as He.
    destruct (series <- column res "title" ;; first_cell series);
      destruct (series <- column res "data start" ;; first_cell series);
      destruct (series <- column res "data end" ;; first_cell series);
      cbn [bind]; split; congruence.
  - assert (e <> IndexError).
    { unfold get_content in Eres. destruct toc_ as [df|]; [|congruence].
      destruct (index_of "code" (columns df)); [|congruence].
      destruct (negb _) in Eres; congruence. }
    split; congruence.
Qed.

(** * Adding constraints *)

Lemma keys_In {V} (k : string) (d : Dict.t V) :
  In k (Dict.keys d) -> exists v, In (k, v) d.
Proof.
  unfold Dict.keys. rewrite in_map_iff. intros [[k0 v] [E H]].
  simpl in E. subst. exists v. exact H.
Qed.

Lemma In_keys {V} (k : string) (v : V) (d : Dict.t V) :
  In (k, v) d -> In k (Dict.keys d).
Proof.
  intros H. unfold Dict.keys. change k with (fst (k, v)). apply in_map.
  exact H.
Qed.

Lemma kwargs_get_incl (kw kw' : kwargs) (k : string) :
  NoDup (Dict.keys kw) -> NoDup (Dict.keys kw') -> incl kw kw' ->
  In k (Dict.keys kw) -> kwargs_get k kw = kwargs_get k kw'.
Proof.
  intros Hnd Hnd' Hincl Hk. destruct (keys_In _ _ Hk) as [v Hv].
  unfold kwargs_get.
  rewrite (proj2 (@get_In _ k v kw Hnd) Hv).
  rewrite (proj2 (@get_In _ k v kw' Hnd') (Hincl _ Hv)). reflexivity.
Qed.

(** More constraints, fewer values: when a query returns, the query
    with some of its keywords left out returns too, and lists every value
    the first one lists. *)
Lemma narrowing (names : Dict.t string)
      (set_order : list string -> list string) (df : DataFrame)
      (member : string) (kw kw' : kwargs) (im : nat) (l' : list string) :
  enumerates set_order ->
  In member (Dict.keys names) ->
  ~ In member (Dict.keys kw') ->
  index_of member (columns df) = Some im ->
  (forall k, In k (Dict.keys kw') -> In k (Dict.keys names) ->
             index_of k (columns df) <> None) ->
  NoDup (Dict.keys kw') ->
  NoDup (Dict.keys kw) ->
  incl kw kw' ->
  get_member names set_order member (Some df) kw' = Ok l' ->
  exists l, get_member names set_order member (Some df) kw = Ok l
            /\ incl l' l.
Proof.
  intros Henum Hm Hkw' Him Hcols Hnd' Hnd Hincl.
  assert (Hkeys : forall k, In k (Dict.keys kw) -> In k (Dict.keys kw')).
  { intros k Hk. destruct (keys_In _ _ Hk) as [v Hv].
    apply (In_keys _ _ _ (Hincl _ Hv)). }
  assert (Hsat : forall r,
             satisfies (columns df) kw' (constrained names kw') r = true ->
             satisfies (columns df) kw (constrained names kw) r = true).
  { intros r H. apply satisfies_constrained. intros k Hk Hn.
    destruct (proj1 (satisfies_constrained names (columns df) kw' r) H
                    k (Hkeys k Hk) Hn) as [i [Hi Hc]].
    exists i. split; [exact Hi|].
    rewrite (kwargs_get_incl k Hnd Hnd' Hincl Hk). exact Hc. }
  rewrite (@get_member_resolve names set_order df member kw' im Henum Hm Hkw'
             Him).
  2:{ intros k Hk. unfold constrained in Hk. apply filter_In in Hk.
      destruct Hk as [Hk Hn]. apply str_in_In in Hn. exact (Hcols k Hk Hn). }
  rewrite (@get_member_resolve names set_order df member kw im Henum Hm).
  2:{ intros H. apply Hkw'. exact (Hkeys _ H). }
  2:{ exact Him. }
  2:{ intros k Hk. unfold constrained in Hk. apply filter_In in Hk.
      destruct Hk as [Hk Hn]. apply str_in_In in Hn.
      exact (Hcols k (Hkeys k Hk) Hn). }
  assert (Hall : forall sel,
             (forall r, In r sel -> In r (rows df)) ->
             incl (unique (map (cell im) sel))
                  (unique (map (cell im) (rows df)))).
  { intros sel Hsel x Hx. apply unique_In, in_map_iff in Hx.
    destruct Hx as [r [Hx Hr]]. apply unique_In, in_map_iff.
    exists r. split; [exact Hx|exact (Hsel r Hr)]. }
  destruct (constrained names kw') as [|k0' ks'] eqn:Ec'.
  - assert (Ec : constrained names kw = []).
    { apply constrained_nil. intros k Hk Hn.
      exact (proj1 (constrained_nil names kw') Ec' k (Hkeys k Hk) Hn). }
    rewrite Ec. intros H. injection H as <-. eexists. split; [reflexivity|].
    apply incl_refl.
  - destruct (filter (satisfies (columns df) kw' (k0' :: ks')) (rows df))
      as [|r0 sel'] eqn:Esel'; [discriminate|].
    intros H.
    assert (l' = unique (map (cell im) (r0 :: sel'))) as -> by congruence.
    assert (Hsub : forall r,
               In r (r0 :: sel') ->
               In r (filter (satisfies (columns df) kw (constrained names kw))
                            (rows df))).
    { intros r Hr. rewrite <- Esel' in Hr. apply filter_In in Hr.
      destruct Hr as [Hr Hs]. apply filter_In. split; [exact Hr|].
      apply Hsat. exact Hs. }
    destruct (constrained names kw) as [|k0 ks] eqn:Ec.
    + eexists. split; [reflexivity|]. apply Hall.
      intros r Hr. apply Hsub, filter_In in Hr. apply Hr.
    + destruct (filter (satisfies (columns df) kw (k0 :: ks)) (rows df))
        as [|r1 sel] eqn:Esel.
      * exfalso. apply (Hsub r0). left. reflexivity.
      * eexists. split; [reflexivity|].
        intros x Hx. apply unique_In, in_map_iff in Hx.
        destruct Hx as [r [Hx Hr]]. apply unique_In, in_map_iff.
        exists r. split; [exact Hx|apply Hsub; exact Hr].
Qed.

(** Constraints only narrow the result of a query.  On a loaded table,
    for dictionaries of keywords one of which holds all items of the
    other: when the query under the larger one returns, so does the
    query under the smaller one, and it lists every value the first one
    lists. *)
Theorem get_member_more_constraints_narrow
        (names : Dict.t string) (set_order : list string -> list string)
        (df : DataFrame) (member : string) (kw kw' : kwargs) (im : nat)
        (l' : list string) :
  enumerates set_order ->
  In member (Dict.keys names) ->
  ~ In member (Dict.keys kw') ->
  index_of member (columns df) = Some im ->
  (forall k, In k (Dict.keys kw') -> In k (Dict.keys names) ->
             index_of k (columns df) <> None) ->
  NoDup (Dict.keys kw') ->
  NoDup (Dict.keys kw) ->
  incl kw kw' ->
  get_member names set_order member (Some df) kw' = Ok l' ->
  exists l, get_member names set_order member (Some df) kw = Ok l
            /\ incl l' l.
Proof. apply narrowing. Qed.

Lemma get_member_more_constraints_narrow_witness :
  exists l, get_member scenario_names (fun l => rev l) "label"
                       (Some scenario_table) [("dimension", VStr "dim1")]
            = Ok l
            /\ incl ["lbl3"] l.
Proof.
  apply (@get_member_more_constraints_narrow
           scenario_names (fun l => rev l) scenario_table "label"
           [("dimension", VStr "dim1")]
           [("dataset", VStr "ds2"); ("dimension", VStr "dim1")] 2 ["lbl3"]).
  - intros l x. symmetry. apply in_rev.
  - simpl. right. right. left. reflexivity.
  - simpl. intros [H|[H|[]]]; discriminate.
  - reflexivity.
  - simpl. intros k [<-|[<-|[]]] _; discriminate.
  - simpl. constructor.
    + intros [H|[]]. discriminate.
    + constructor; [intros []|constructor].
  - simpl. constructor; [intros []|constructor].
  - intros p [<-|[]]. right. left. reflexivity.
  - vm_compute. reflexivity.
Defined.

(** The labels of a dimension, with and without a dataset.  On a loaded
    table with the three member columns: when the labels of a dimension
    used by a given dataset are listed, so are the labels of the
    dimension alone, by [getAllLabels] without keywords as by
    [getDimension], and they include the former; hence a label found in
    the dimension for the dataset is found in the dimension. *)
Theorem labels_with_and_without_dataset
        (names : Dict.t string) (set_order : list string -> list string)
        (self : Meta) (df : DataFrame) (dim ds : string) (l' : list string)
        (id ic il : nat) :
  enumerates set_order ->
  metabase self = Some df ->
  In "label" (Dict.keys names) ->
  index_of "data" (columns df) = Some id ->
  index_of "dic" (columns df) = Some ic ->
  index_of "label" (columns df) = Some il ->
  getAllLabels names set_order self (VStr dim) [("data", VStr ds)] = Ok l' ->
  exists l,
    getAllLabels names set_order self (VStr dim) [] = Ok l
    /\ getDimension names set_order self (VStr dim) = Ok l
    /\ incl l' l
    /\ forall x,
        checkLabelInDimension names set_order self (VStr x) (VStr dim)
                              [("data", VStr ds)] = Ok true ->
        checkLabelInDimension names set_order self (VStr x) (VStr dim) []
        = Ok true.
Proof.
  intros Henum Hmb Hlabel Hid Hic Hil.
  unfold checkLabelInDimension, getAllLabels, getDimension, resolve.
  rewrite Hmb.
  change (Dict.mem "dic" [("data", VStr ds)]
          || Dict.mem "member" [("data", VStr ds)]
          || Dict.mem "metabase" [("data", VStr ds)]) with false.
  change (Dict.mem "dic" [] || Dict.mem "member" [] || Dict.mem "metabase" [])
    with false.
  cbv iota. intros H.
  destruct (@narrowing names set_order df "label"
              [("dic", VStr dim)]
              [("dic", VStr dim); ("data", VStr ds)] il l' Henum Hlabel)
    as [l [Hl Hincl]].
  - simpl. intros [E|[E|[]]]; discriminate.
  - exact Hil.
  - simpl. intros k [<-|[<-|[]]] _; congruence.
  - simpl. constructor.
    + intros [E|[]]. discriminate.
    + constructor; [intros []|constructor].
  - simpl. constructor; [intros []|constructor].
  - intros p [<-|[]]. left. reflexivity.
  - exact H.
  - exists l. split; [exact Hl|]. split; [exact Hl|].
    split; [exact Hincl|].
    intros x. rewrite H, Hl. cbn [bind val_in]. intros Hx.
    injection Hx as Hx. apply str_in_In in Hx. f_equal.
    apply str_in_In. apply Hincl. exact Hx.
Qed.

Lemma labels_with_and_without_dataset_witness :
  exists l,
    getAllLabels meta_names (fun l => rev l) loaded_meta (VStr "dim1") []
    = Ok l
    /\ getDimension meta_names (fun l => rev l) loaded_meta (VStr "dim1")
       = Ok l
    /\ incl ["lbl3"] l
    /\ forall x,
        checkLabelInDimension meta_names (fun l => rev l) loaded_meta
                              (VStr x) (VStr "dim1") [("data", VStr "ds2")]
        = Ok true ->
        checkLabelInDimension meta_names (fun l => rev l) loaded_meta
                              (VStr x) (VStr "dim1") []
        = Ok true.
Proof.
  apply (@labels_with_and_without_dataset
           meta_names (fun l => rev l) loaded_meta
           (mkDataFrame ["data"; "dic"; "label"] scenario_rows)
           "dim1" "ds2" ["lbl3"] 0 1 2).
  - intros l x. symmetry. apply in_rev.
  - reflexivity.
  - simpl. right. right. left. reflexivity.
  - reflexivity.
  - reflexivity.
  - reflexivity.
  - vm_compute. reflexivity.
Defined.

